(** * Analogue-year forecast model (Yanase/modelo1.py)

    A shallow embedding of [calc_corr_last12] and of the class
    [SimpleCorrelation12] (methods [__init__], [fit], [predict]).

    Tables are pandas DataFrames carrying a PeriodIndex.  A period is
    kept as its ordinal at the index frequency; for the monthly
    frequency this is the number of months since 1970-01, so that
    adding an integer to a period is integer addition and the calendar
    month is the residue modulo 12.  Cells are float64 values; the
    numeric back end (NaN test, comparison, and the windowed Pearson
    kernel behind [DataFrame.rolling(12).corr]) is pandas' and is kept
    abstract in the class [Backend].

    Scope: the index is a PeriodIndex of some frequency, column labels
    are integers, and every column is numeric. *)

From Stdlib Require Import String DecimalString QArith.
From Stdlib Require Import ZArith List Lia Bool Permutation Sorted.
Import ListNotations.
Local Open Scope Z_scope.

Set Implicit Arguments.

(** ** Exceptions and fallible results *)

Inductive exn : Type :=
| Exception (msg : string)
| AttributeError
| IndexError
| KeyError
| TypeError
| ValueError.

(** The two exceptions the module raises itself are bare [Exception]s
    told apart by their message. *)
Definition FormatError : exn :=
  Exception "Favor informar dataframe periodizado mensalmente.".
Definition NotFittedError : exn :=
  Exception "Realizar o fit do modelo antes".

Inductive result (A : Type) : Type :=
| Ok (a : A)
| Raise (e : exn).
Arguments Ok {A} a.
Arguments Raise {A} e.

Definition bind {A B} (r : result A) (k : A -> result B) : result B :=
  match r with
  | Ok a => k a
  | Raise e => Raise e
  end.

Notation "x <- r ;; k" := (bind r (fun x => k))
  (at level 61, r at next level, right associativity).

(** A Python [for] loop whose body may raise: the first exception
    leaves the loop. *)
Fixpoint for_each {A S} (body : S -> A -> result S) (l : list A) (s : S)
  : result S :=
  match l with
  | [] => Ok s
  | a :: l' => s' <- body s a ;; for_each body l' s'
  end.

(** [range(a, b)] *)
Definition range (a b : Z) : list Z :=
  map (fun i => a + Z.of_nat i) (seq 0 (Z.to_nat (b - a))).

(** [l[i]] with Python's negative indices. *)
Definition py_index {A} (l : list A) (i : Z) : result A :=
  let n := Z.of_nat (length l) in
  let j := if i <? 0 then i + n else i in
  if (0 <=? j) && (j <? n) then
    match nth_error l (Z.to_nat j) with
    | Some a => Ok a
    | None => Raise IndexError
    end
  else Raise IndexError.

(** [l[:n]] with Python's slice rules (a negative bound counts from the
    end, and bounds are clipped). *)
Definition py_slice_to {A} (l : list A) (n : Z) : list A :=
  if n <? 0 then firstn (Z.to_nat (Z.of_nat (length l) + n)) l
  else firstn (Z.to_nat n) l.

(** ** Periods and indexes *)

Inductive Freq : Type := Day | MonthEnd | QuarterEnd | YearEnd.

Definition is_MonthEnd (f : Freq) : bool :=
  match f with MonthEnd => true | _ => false end.

Definition Period := Z.

(** [p.month] and [p.year] of a monthly period. *)
Definition month (p : Period) : Z := p mod 12 + 1.
Definition year (p : Period) : Z := 1970 + p / 12.

Record Index : Type := {
  freq : Freq;
  name : option string;
  keys : list Period
}.

(** [pd.period_range(start, periods=n, freq='M')] *)
Definition period_range (start : Period) (periods : nat) : Index :=
  {| freq := MonthEnd;
     name := None;
     keys := map (fun i => start + Z.of_nat i) (seq 0 periods) |}.

(** Decimal digits of a number, and [strftime('%Y-%m')], which pads the
    month to two digits. *)
Definition digits (z : Z) : string :=
  NilZero.string_of_int (Z.to_int z).
Definition strftime_Ym (p : Period) : string :=
  let pad := if month p <? 10 then "0"%string else ""%string in
  String.append (digits (year p))
    (String.append "-" (String.append pad (digits (month p)))).

(** ** Tables *)

Class Backend (value : Type) : Type := {
  nan : value;
  isna : value -> bool;
  (** [a <= b] on float64; false as soon as one side is NaN *)
  leb : value -> value -> bool;
  (** Pearson correlation of two full windows, NaN where undefined *)
  corr : list value -> list value -> value
}.

Section Tables.
Context {value : Type} {F : Backend value}.

(** A row is kept with its index key, so that a table cannot be out of
    step with its index; [index] rebuilds the pandas view. *)
Record DataFrame : Type := {
  index_freq : Freq;
  index_name : option string;
  columns : list Z;
  rows : list (Period * list value)
}.

Definition index (df : DataFrame) : Index :=
  {| freq := index_freq df;
     name := index_name df;
     keys := map fst (rows df) |}.

Definition with_rows (df : DataFrame) (rs : list (Period * list value))
  : DataFrame :=
  {| index_freq := index_freq df;
     index_name := index_name df;
     columns := columns df;
     rows := rs |}.

(** [df.copy()]: values are immutable here, a copy is the table. *)
Definition copy (df : DataFrame) : DataFrame := df.

(** [df.iloc[-n:]] *)
Definition iloc_last (n : nat) (df : DataFrame) : DataFrame :=
  with_rows df (skipn (length (rows df) - n) (rows df)).

(** [df.iloc[:n]] *)
Definition iloc_to (n : Z) (df : DataFrame) : DataFrame :=
  with_rows df (py_slice_to (rows df) n).

(** [df[mask]] for a mask computed from the index. *)
Definition getitem_mask (mask : Period -> bool) (df : DataFrame)
  : DataFrame :=
  with_rows df (filter (fun r => mask (fst r)) (rows df)).

(** [df.iloc[0]] *)
Definition iloc0 (df : DataFrame) : result (list value) :=
  match rows df with
  | [] => Raise IndexError
  | r :: _ => Ok (snd r)
  end.

(** [df[mask] = row]: every selected row receives the given row. *)
Definition setitem_mask (mask : Period -> bool) (row : list value)
    (df : DataFrame) : DataFrame :=
  with_rows df
    (map (fun r => if mask (fst r) then (fst r, row) else r) (rows df)).

(** [df.index.name = s] *)
Definition set_index_name (s : string) (df : DataFrame) : DataFrame :=
  {| index_freq := index_freq df;
     index_name := Some s;
     columns := columns df;
     rows := rows df |}.

(** [df.index = idx]; pandas refuses an index of another length. *)
Definition set_index (idx : Index) (df : DataFrame) : result DataFrame :=
  if Nat.eqb (length (keys idx)) (length (rows df)) then
    Ok {| index_freq := freq idx;
          index_name := name idx;
          columns := columns df;
          rows := combine (keys idx) (map snd (rows df)) |}
  else Raise ValueError.

(** Values of the column at position [j], top to bottom. *)
Definition column_values (j : nat) (df : DataFrame) : list value :=
  map (fun r => nth j (snd r) nan) (rows df).

(** The [w] entries of [l] that end at position [i]. *)
Definition window (w i : nat) (l : list value) : list value :=
  firstn w (skipn (i + 1 - w) l).

(** [df.rolling(w).corr(other)] for two tables over the same index and
    columns: per column, the kernel on the two windows ending at each
    row, and NaN on the first [w - 1] rows. *)
Definition rolling_corr (w : nat) (df other : DataFrame) : DataFrame :=
  with_rows df
    (map (fun ir : nat * (Period * list value) =>
            let (i, r) := ir in
            (fst r,
             map (fun j =>
                    if (i + 1 <? w)%nat then nan
                    else corr (window w i (column_values j df))
                              (window w i (column_values j other)))
                 (seq 0 (length (columns df)))))
         (combine (seq 0 (length (rows df))) (rows df))).

(** ** calc_corr_last12 *)

(** Body of the loop over the calendar months. *)
Definition spread_month (df_trecho df_other : DataFrame) (m : Z)
  : result DataFrame :=
  row <- iloc0 (getitem_mask (fun p => month p =? m) df_trecho) ;;
  Ok (setitem_mask (fun p => month p =? m) row df_other).

Definition calc_corr_last12 (df_hist : DataFrame) : result DataFrame :=
  if negb (is_MonthEnd (freq (index df_hist))) then Raise FormatError
  else
    let df_ref := copy df_hist in
    let df_trecho := iloc_last 12 df_ref in
    df_other <- for_each (spread_month df_trecho) (range 1 13)
                  (copy df_ref) ;;
    let df_corr := rolling_corr 12 df_ref df_other in
    m_last <- py_index (map month (keys (index df_trecho))) (-1) ;;
    Ok (set_index_name "mes_final"
          (getitem_mask (fun p => month p =? m_last) df_corr)).

(** ** Series and sorting *)

(** A column taken out of a table: index keys with their values. *)
Definition Series : Type := list (Period * value).

Fixpoint position (c : Z) (l : list Z) : option nat :=
  match l with
  | [] => None
  | x :: l' => if x =? c then Some O else option_map S (position c l')
  end.

(** [df[col]] for a column label.  A label held by several columns
    selects a sub-table, on which the [sort_values(ascending=False)]
    that follows in [fit] raises [TypeError]; that outcome is given
    here. *)
Definition getitem_col (col : Z) (df : DataFrame) : result Series :=
  match position col (columns df) with
  | None => Raise KeyError
  | Some j =>
      if (count_occ Z.eq_dec (columns df) col =? 1)%nat then
        Ok (map (fun r => (fst r, nth j (snd r) nan)) (rows df))
      else Raise TypeError
  end.

(** [df.loc[label]]: the row carrying that index key. *)
Definition loc_label (label : Period) (df : DataFrame)
  : result (list value) :=
  match find (fun r => fst r =? label) (rows df) with
  | Some r => Ok (snd r)
  | None => Raise KeyError
  end.

(** Stable ascending sort of the defined entries. *)
Fixpoint insert (x : Period * value) (l : Series) : Series :=
  match l with
  | [] => [x]
  | y :: l' => if leb (snd x) (snd y) then x :: l else y :: insert x l'
  end.

Fixpoint argsort (l : Series) : Series :=
  match l with
  | [] => []
  | x :: l' => insert x (argsort l')
  end.

(** [s.sort_values(ascending=...)], after pandas' [nargsort] with its
    defaults: NaN entries are set apart and appended last; a
    descending sort reverses the defined entries before and after the
    ascending sort. *)
Definition sort_values (ascending : bool) (s : Series) : Series :=
  let non_nans := filter (fun e => negb (isna (snd e))) s in
  let nans := filter (fun e => isna (snd e)) s in
  (if ascending then argsort non_nans
   else rev (argsort (rev non_nans))) ++ nans.

(** ** Label slices *)

Fixpoint is_monotonic_increasing (l : list Z) : bool :=
  match l with
  | a :: (b :: _) as l' => (a <=? b) && is_monotonic_increasing l'
  | _ => true
  end.

Fixpoint is_monotonic_decreasing (l : list Z) : bool :=
  match l with
  | a :: (b :: _) as l' => (b <=? a) && is_monotonic_decreasing l'
  | _ => true
  end.

(** [df.loc[label:]].  On a monotonic index the left bound is found by
    bisection, whether or not the label is present; otherwise the
    label has to occur exactly once. *)
Definition loc_from (label : Period) (df : DataFrame) : result DataFrame :=
  let ks := keys (index df) in
  if is_monotonic_increasing ks then
    Ok (with_rows df
          (skipn (length (filter (fun k => k <? label) ks)) (rows df)))
  else if is_monotonic_decreasing ks then
    Ok (with_rows df
          (skipn (length (filter (fun k => label <? k) ks)) (rows df)))
  else
    match position label ks with
    | Some i =>
        if (count_occ Z.eq_dec ks label =? 1)%nat then
          Ok (with_rows df (skipn i (rows df)))
        else Raise KeyError
    | None => Raise KeyError
    end.

(** ** The class SimpleCorrelation12 *)

Record SimpleCorrelation12 : Type := {
  coluna : Z;
  posicao : Z;
  df_base : option DataFrame;
  df_correlacao : option DataFrame;
  _period_ : option Period;
  correlacao_ : option value;
  correlacao_outros_ : option (list value);
  mes_final_periodo_ : option string
}.

(** [SimpleCorrelation12(coluna, posicao=1)] *)
Definition __init__ (coluna : Z) (posicao : option Z)
  : SimpleCorrelation12 :=
  {| coluna := coluna;
     posicao := match posicao with Some n => n | None => 1 end;
     df_base := None;
     df_correlacao := None;
     _period_ := None;
     correlacao_ := None;
     correlacao_outros_ := None;
     mes_final_periodo_ := None |}.

(** Attribute assignments. *)
Definition set_df_base (d : DataFrame) (m : SimpleCorrelation12) :=
  {| coluna := coluna m; posicao := posicao m;
     df_base := Some d; df_correlacao := df_correlacao m;
     _period_ := _period_ m; correlacao_ := correlacao_ m;
     correlacao_outros_ := correlacao_outros_ m;
     mes_final_periodo_ := mes_final_periodo_ m |}.

Definition set_df_correlacao (d : DataFrame) (m : SimpleCorrelation12) :=
  {| coluna := coluna m; posicao := posicao m;
     df_base := df_base m; df_correlacao := Some d;
     _period_ := _period_ m; correlacao_ := correlacao_ m;
     correlacao_outros_ := correlacao_outros_ m;
     mes_final_periodo_ := mes_final_periodo_ m |}.

Definition set_period (p : Period) (m : SimpleCorrelation12) :=
  {| coluna := coluna m; posicao := posicao m;
     df_base := df_base m; df_correlacao := df_correlacao m;
     _period_ := Some p; correlacao_ := correlacao_ m;
     correlacao_outros_ := correlacao_outros_ m;
     mes_final_periodo_ := mes_final_periodo_ m |}.

Definition set_correlacao (v : value) (m : SimpleCorrelation12) :=
  {| coluna := coluna m; posicao := posicao m;
     df_base := df_base m; df_correlacao := df_correlacao m;
     _period_ := _period_ m; correlacao_ := Some v;
     correlacao_outros_ := correlacao_outros_ m;
     mes_final_periodo_ := mes_final_periodo_ m |}.

Definition set_correlacao_outros (r : list value)
    (m : SimpleCorrelation12) :=
  {| coluna := coluna m; posicao := posicao m;
     df_base := df_base m; df_correlacao := df_correlacao m;
     _period_ := _period_ m; correlacao_ := correlacao_ m;
     correlacao_outros_ := Some r;
     mes_final_periodo_ := mes_final_periodo_ m |}.

Definition set_mes_final_periodo (s : string) (m : SimpleCorrelation12) :=
  {| coluna := coluna m; posicao := posicao m;
     df_base := df_base m; df_correlacao := df_correlacao m;
     _period_ := _period_ m; correlacao_ := correlacao_ m;
     correlacao_outros_ := correlacao_outros_ m;
     mes_final_periodo_ := Some s |}.

(** A method body: it runs on the object, may assign attributes, and
    ends with a value or an exception.  The object as it stands when
    the exception leaves the method is returned with it. *)
Definition method (A : Type) : Type :=
  SimpleCorrelation12 -> SimpleCorrelation12 * result A.

Definition mbind {A B} (c : method A) (k : A -> method B) : method B :=
  fun self =>
    match c self with
    | (self', Ok a) => k a self'
    | (self', Raise e) => (self', Raise e)
    end.

Definition assign (f : SimpleCorrelation12 -> SimpleCorrelation12)
  : method unit :=
  fun self => (f self, Ok tt).

Definition attr {A} (f : SimpleCorrelation12 -> A) : method A :=
  fun self => (self, Ok (f self)).

Definition eval {A} (r : result A) : method A :=
  fun self => (self, r).

Notation "x <~ c ;; k" := (mbind c (fun x => k))
  (at level 61, c at next level, right associativity).
Notation "c ;;; k" := (mbind c (fun _ => k))
  (at level 61, right associativity).

(** [self.fit(df_base)].  The returned object is the state component
    of the outcome. *)
Definition fit (df_base : DataFrame) : method unit :=
  assign (set_df_base (copy df_base)) ;;;
  df_corr <~ eval (calc_corr_last12 df_base) ;;
  assign (set_df_correlacao df_corr) ;;;
  col <~ attr coluna ;;
  pos <~ attr posicao ;;
  top_corr <~ eval (s <- getitem_col col df_corr ;;
                    Ok (sort_values false s)) ;;
  p <~ eval (py_index (map fst top_corr) pos) ;;
  assign (set_period p) ;;;
  c <~ eval (py_index (map snd top_corr) pos) ;;
  assign (set_correlacao c) ;;;
  row <~ eval (label <- py_index (map fst top_corr) pos ;;
               loc_label label df_corr) ;;
  assign (set_correlacao_outros row) ;;;
  assign (set_mes_final_periodo (strftime_Ym p)).

(** [self.predict(num_meses)] *)
Definition predict (self : SimpleCorrelation12) (num_meses : option Z)
  : result DataFrame :=
  mes_escolhido_ini <-
    match _period_ self with
    | Some p => Ok (p + 1)
    | None => Raise NotFittedError
    end ;;
  base <- match df_base self with
          | Some d => Ok d
          | None => Raise AttributeError
          end ;;
  last_month <- py_index (keys (index base)) (-1) ;;
  let next_month := last_month + 1 in
  let num_meses :=
    match num_meses with
    | Some n => if n =? 0 then 13 - month mes_escolhido_ini else n
    | None => 13 - month mes_escolhido_ini
    end in
  from_ini <- loc_from mes_escolhido_ini base ;;
  let df_escolhido := iloc_to num_meses from_ini in
  let df_trecho_ajust := copy df_escolhido in
  set_index (period_range next_month (length (rows df_trecho_ajust)))
            df_trecho_ajust.

End Tables.

(** ** An exact rational back end

    Cells are rationals or NaN.  The kernel is the squared Pearson
    coefficient carrying the sign of the covariance: it needs no
    square root, orders windows as the coefficient itself does, and is
    1 exactly when the coefficient is.  It is undefined when a window
    holds a NaN or one of the two variances vanishes. *)

Module QCells.

Definition all_defined (l : list (option Q)) : option (list Q) :=
  fold_right
    (fun o acc =>
       match o, acc with
       | Some q, Some qs => Some (q :: qs)
       | _, _ => None
       end)
    (Some []) l.

Definition qsum (l : list Q) : Q := fold_right Qplus (0#1)%Q l.

Definition qdot (x y : list Q) : Q :=
  qsum (map (fun xy => (fst xy * snd xy)%Q) (combine x y)).

Definition signed_r2 (x y : list (option Q)) : option Q :=
  match all_defined x, all_defined y with
  | Some xs, Some ys =>
      let n := inject_Z (Z.of_nat (length xs)) in
      let sxy := (n * qdot xs ys - qsum xs * qsum ys)%Q in
      let sxx := (n * qdot xs xs - qsum xs * qsum xs)%Q in
      let syy := (n * qdot ys ys - qsum ys * qsum ys)%Q in
      if Qeq_bool (sxx * syy) (0#1)%Q then None
      else
        let r2 := (sxy * sxy / (sxx * syy))%Q in
        Some (Qred (if Qle_bool (0#1)%Q sxy then r2 else Qopp r2))
  | _, _ => None
  end.

(** Twelve times the population variance of a window, scaled by its
    length: n times the sum of squares minus the squared sum, the
    quantity [signed_r2] divides by.  It is never negative; the
    window varies when it is positive. *)
Definition qvariance (w : list (option Q)) : option Q :=
  match all_defined w with
  | Some xs =>
      Some (inject_Z (Z.of_nat (length xs)) * qdot xs xs
            - qsum xs * qsum xs)%Q
  | None => None
  end.

Definition q_nonzero_variance (w : list (option Q)) : Prop :=
  exists v, qvariance w = Some v /\ (0 < v)%Q.

Definition qisna (v : option Q) : bool :=
  match v with Some _ => false | None => true end.

Definition qleb (a b : option Q) : bool :=
  match a, b with
  | Some x, Some y => Qle_bool x y
  | _, _ => false
  end.

#[export] Instance backend : Backend (option Q) :=
  {| nan := None;
     isna := qisna;
     leb := qleb;
     corr := signed_r2 |}.

(** A history of 40 months, 2000-01 to 2003-04, for the stations 6 and
    74. *)
Definition flows6 : list Z :=
  [ 90; 80; 70; 50; 40; 30; 25; 20; 30; 45; 60; 85;
    70; 90; 60; 55; 30; 35; 20; 25; 35; 40; 65; 80;
    40; 30; 50; 45; 60; 70; 80; 75; 60; 50; 45; 35;
    95; 85; 75; 55 ].

Definition flows74 : list Z :=
  [ 10; 12; 15; 20; 26; 30; 33; 31; 27; 21; 16; 11;
    11; 13; 14; 22; 25; 31; 32; 30; 28; 20; 17; 12;
    30; 28; 25; 20; 15; 11; 10; 12; 16; 21; 26; 29;
    12; 14; 13; 23 ].

Definition cell (z : Z) : option Q := Some (inject_Z z).

Definition table (fr : Freq) (start : Period) (a b : list Z)
  : @DataFrame (option Q) :=
  {| index_freq := fr;
     index_name := None;
     columns := [6; 74];
     rows := combine (map (fun i => start + Z.of_nat i) (seq 0 (length a)))
                     (map (fun ab => [cell (fst ab); cell (snd ab)])
                          (combine a b)) |}.

Definition history : @DataFrame (option Q) :=
  table MonthEnd 360 flows6 flows74.

(** The same values on a daily index. *)
Definition daily : @DataFrame (option Q) :=
  table Day 10957 flows6 flows74.

(** Eleven months only, 2000-01 to 2000-11. *)
Definition short : @DataFrame (option Q) :=
  table MonthEnd 360 (firstn 11 flows6) (firstn 11 flows74).

(** One month, a gap of a year, then twelve months in a row. *)
Definition gapped : @DataFrame (option Q) :=
  with_rows history
    ((360, [cell 50; cell 20])
       :: rows (table MonthEnd 373 (firstn 12 flows6) (firstn 12 flows74))).

(** A model with the default rank, and what two calls of [fit] make of
    it. *)
Definition model : @SimpleCorrelation12 (option Q) := __init__ 6 None.
Definition model_fitted : @SimpleCorrelation12 (option Q) :=
  fst (fit history model).
Definition model_refused : @SimpleCorrelation12 (option Q) :=
  fst (fit daily model).

(** The correlation table of [history] and its column 6. *)
Definition history_corr : @DataFrame (option Q) :=
  match calc_corr_last12 history with
  | Ok t => t
  | Raise _ => history
  end.
Definition history_corr6 : @Series (option Q) :=
  match getitem_col 6 history_corr with
  | Ok s => s
  | Raise _ => []
  end.

(** The fitted model after a refused second call, a model of rank 0,
    a model on a column that does not exist, and the first twelve
    months of the history. *)
Definition model_stale : @SimpleCorrelation12 (option Q) :=
  fst (fit daily model_fitted).
Definition model_rank0 : @SimpleCorrelation12 (option Q) :=
  fst (fit history (__init__ 6 (Some 0))).
Definition model_col7 : @SimpleCorrelation12 (option Q) := __init__ 7 None.
Definition first_year : @DataFrame (option Q) :=
  table MonthEnd 360 (firstn 12 flows6) (firstn 12 flows74).

End QCells.

(** ** Well-formed monthly histories *)

Fixpoint contiguous (l : list Period) : bool :=
  match l with
  | a :: (b :: _) as l' => (b =? a + 1) && contiguous l'
  | _ => true
  end.

(** The monthly time table of the data model: a monthly index without
    gaps, and at least the twelve rows of one trailing window. *)
Definition monthly_history {value : Type} (df : @DataFrame value) : bool :=
  is_MonthEnd (freq (index df))
  && contiguous (keys (index df))
  && (12 <=? length (rows df))%nat.

(** ** Predicates used in the statements *)

Section Predicates.
Context {value : Type} {F : Backend value}.
Local Abbreviation DataFrame := (@DataFrame value).
Local Abbreviation Series := (@Series value).
Local Abbreviation SimpleCorrelation12 := (@SimpleCorrelation12 value).

(** Some row of [t] falls in calendar month [m]. *)
Definition has_month (t : DataFrame) (m : Z) : Prop :=
  exists r, In r (rows t) /\ month (fst r) = m.

(** The row of [t] that the loop of [calc_corr_last12] picks for the
    calendar month [m]: the first one in that month. *)
Definition month_row (t : DataFrame) (m : Z) : option (list value) :=
  option_map snd (find (fun r => month (fst r) =? m) (rows t)).

(** What the loop over the months [ms] makes of the rows of a table. *)
Definition spread_rows (t : DataFrame) (ms : list Z)
    (rs : list (Period * list value)) : list (Period * list value) :=
  map (fun r =>
         if existsb (fun m => month (fst r) =? m) ms then
           match month_row t (month (fst r)) with
           | Some row => (fst r, row)
           | None => r
           end
         else r) rs.

(** Entries of a column whose value is, or is not, NaN. *)
Definition defined (e : Period * value) : bool := negb (isna (snd e)).
Definition missing (e : Period * value) : bool := isna (snd e).

(** [b] does not exceed [a]: the order of a descending column. *)
Definition desc (a b : Period * value) : Prop := leb (snd b) (snd a) = true.
Definition asc (a b : Period * value) : Prop := leb (snd a) (snd b) = true.

(** What is needed of the float comparison: it is total and transitive
    away from NaN. *)
Class OrderLaws : Prop := {
  leb_total : forall a b : value,
    isna a = false -> isna b = false -> leb a b = true \/ leb b a = true;
  leb_trans : forall a b c : value,
    leb a b = true -> leb b c = true -> leb a c = true
}.

(** Modelled from the spec: the kernel is the Pearson correlation of
    two windows of twelve samples, missing where a window has a
    missing sample or no variance.  [one] is the cell 1.0, a defined
    value, and [nonzero_variance w] says that the samples of [w] are
    all there and vary.  The law is the one the claim on the final row
    rests on: a window of nonzero variance correlates with itself at
    1.  The law is that of the correlation over exact numbers; what
    the rounding of float64 does to pandas' running sums is not part
    of it. *)
Class PearsonLaws : Type := {
  one : value;
  nonzero_variance : list value -> Prop;
  one_defined : isna one = false;
  corr_self : forall w : list value, nonzero_variance w -> corr w w = one
}.

(** The object a successful [fit] leaves behind. *)
Definition fitted (self : SimpleCorrelation12) (df df_corr : DataFrame)
    (p : Period) (c : value) (row : list value) : SimpleCorrelation12 :=
  {| coluna := coluna self;
     posicao := posicao self;
     df_base := Some (copy df);
     df_correlacao := Some df_corr;
     _period_ := Some p;
     correlacao_ := Some c;
     correlacao_outros_ := Some row;
     mes_final_periodo_ := Some (strftime_Ym p) |}.

(** The life of one model object: it is constructed, then [fit] is
    called on it any number of times, the caller catching what a call
    raises.  The flag tells whether some call has returned. *)
Inductive session : SimpleCorrelation12 -> bool -> Prop :=
| session_new (coluna : Z) (posicao : option Z) :
    session (__init__ coluna posicao) false
| session_fit_ok (self self' : SimpleCorrelation12) (b : bool)
    (df : DataFrame) :
    session self b -> fit df self = (self', Ok tt) -> session self' true
| session_fit_raise (self self' : SimpleCorrelation12) (b : bool)
    (df : DataFrame) (e : exn) :
    session self b -> fit df self = (self', Raise e) -> session self' b.

End Predicates.

(** * Properties *)

Section Facts.
Context {value : Type} {F : Backend value}.
Local Abbreviation DataFrame := (@DataFrame value).
Local Abbreviation Series := (@Series value).
Local Abbreviation SimpleCorrelation12 := (@SimpleCorrelation12 value).

(** ** Lists, ranges and Python indexing *)

Lemma range_1_13 : range 1 13 = [1; 2; 3; 4; 5; 6; 7; 8; 9; 10; 11; 12].
Proof. reflexivity. Qed.

Lemma month_bounds (p : Period) : 1 <= month p <= 12.
Proof. unfold month. pose proof (Z.mod_pos_bound p 12). lia. Qed.

Lemma py_index_nonneg {A} (l : list A) (i : Z) (a : A) :
  0 <= i -> py_index l i = Ok a -> nth_error l (Z.to_nat i) = Some a.
Proof.
  intros Hi. unfold py_index.
  destruct (i <? 0) eqn:E; [apply Z.ltb_lt in E; lia|].
  destruct ((0 <=? i) && (i <? Z.of_nat (length l))); [|discriminate].
  destruct (nth_error l (Z.to_nat i)); [congruence | discriminate].
Qed.

Lemma py_index_in_range {A} (l : list A) (i : Z) :
  0 <= i < Z.of_nat (length l) ->
  exists a, py_index l i = Ok a /\ nth_error l (Z.to_nat i) = Some a.
Proof.
  intros Hi. unfold py_index.
  destruct (i <? 0) eqn:E; [apply Z.ltb_lt in E; lia|].
  replace ((0 <=? i) && (i <? Z.of_nat (length l))) with true
    by (symmetry; apply andb_true_iff; split;
        [apply Z.leb_le | apply Z.ltb_lt]; lia).
  destruct (nth_error l (Z.to_nat i)) eqn:N; [eauto|].
  apply nth_error_None in N. lia.
Qed.

Lemma py_index_raise {A} (l : list A) (i : Z) (e : exn) :
  py_index l i = Raise e -> e = IndexError.
Proof.
  unfold py_index.
  destruct (_ && _); [|congruence].
  destruct (nth_error _ _); congruence.
Qed.

Lemma py_index_map {A B} (f : A -> B) (l : list A) (i : Z) :
  py_index (map f l) i = (a <- py_index l i ;; Ok (f a)).
Proof.
  unfold py_index. rewrite length_map.
  destruct (_ && _); [|reflexivity].
  rewrite nth_error_map. destruct (nth_error l _); reflexivity.
Qed.

Lemma py_index_last {A} (l : list A) (d : A) :
  l <> [] -> py_index l (-1) = Ok (last l d).
Proof.
  intros Hl. destruct (exists_last Hl) as [l' [a ->]].
  rewrite last_last. unfold py_index. rewrite length_app.
  change (length [a]) with 1%nat. change (-1 <? 0) with true. cbv iota.
  replace (0 <=? _) with true by (symmetry; apply Z.leb_le; lia).
  replace (_ <? _) with true by (symmetry; apply Z.ltb_lt; lia).
  cbn [andb].
  replace (Z.to_nat (-1 + Z.of_nat (length l' + 1))) with (length l' + 0)%nat
    by lia.
  rewrite nth_error_app2 by lia.
  replace (length l' + 0 - length l')%nat with O by lia. reflexivity.
Qed.

Lemma last_skipn {A} (l : list A) (d : A) :
  forall n, (n < length l)%nat -> last (skipn n l) d = last l d.
Proof.
  induction l as [|a l IH]; intros n Hn; [simpl in Hn; lia|].
  destruct n as [|n]; [reflexivity|].
  simpl in Hn. cbn [skipn]. rewrite IH by lia.
  destruct l; [simpl in Hn; lia | reflexivity].
Qed.

Lemma contiguous_range (l : list Period) :
  contiguous l = true ->
  l = map (fun i => hd 0 l + Z.of_nat i) (seq 0 (length l)).
Proof.
  induction l as [|a l IH]; [reflexivity|].
  intros H. simpl. f_equal; [lia|].
  destruct l as [|b l']; [reflexivity|].
  simpl in H. apply andb_true_iff in H. destruct H as [Hb Hc].
  apply Z.eqb_eq in Hb. specialize (IH Hc).
  rewrite IH at 1. rewrite <- seq_shift, map_map.
  apply map_ext. intros i. simpl. lia.
Qed.

(** ** Index and columns through the table operations *)

Lemma index_setitem_mask mask row (df : DataFrame) :
  index (setitem_mask mask row df) = index df.
Proof.
  unfold index, setitem_mask, with_rows. simpl. f_equal.
  rewrite map_map. apply map_ext. intros r.
  destruct (mask (fst r)); reflexivity.
Qed.

Lemma keys_getitem_mask mask (df : DataFrame) :
  keys (index (getitem_mask mask df)) = filter mask (keys (index df)).
Proof.
  simpl. induction (rows df) as [|r l IH]; [reflexivity|].
  simpl. destruct (mask (fst r)); simpl; now rewrite IH.
Qed.

Lemma keys_enumerated {A B} (g : nat -> A * B -> B) (l : list (A * B)) :
  forall s,
    map fst (map (fun ir : nat * (A * B) =>
                    let (i, r) := ir in (fst r, g i r))
                 (combine (seq s (length l)) l))
    = map fst l.
Proof.
  induction l as [|r l IH]; intros s; [reflexivity|].
  simpl. f_equal. apply IH.
Qed.

Lemma index_rolling_corr w (df other : DataFrame) :
  index (rolling_corr w df other) = index df.
Proof.
  unfold index, rolling_corr, with_rows. simpl. f_equal.
  apply (keys_enumerated
           (fun i _ =>
              map (fun j =>
                     if (i + 1 <? w)%nat then nan
                     else corr (window w i (column_values j df))
                               (window w i (column_values j other)))
                  (seq 0 (length (columns df))))).
Qed.

(** ** The loop that spreads the trailing window *)

Lemma spread_month_ok (t d : DataFrame) (m : Z) :
  has_month t m ->
  exists row,
    spread_month t d m = Ok (setitem_mask (fun p => month p =? m) row d).
Proof.
  intros [r [Hin Hm]]. unfold spread_month, iloc0, getitem_mask.
  simpl.
  destruct (filter (fun r0 => month (fst r0) =? m) (rows t)) as [|r0 l] eqn:E.
  - assert (In r (filter (fun r0 => month (fst r0) =? m) (rows t))) as Hf
      by (apply filter_In; split; [assumption | now apply Z.eqb_eq]).
    rewrite E in Hf. destruct Hf.
  - simpl. eauto.
Qed.

Lemma spread_month_raise (t d : DataFrame) (m : Z) (e : exn) :
  spread_month t d m = Raise e -> e = IndexError.
Proof.
  unfold spread_month, iloc0.
  destruct (rows (getitem_mask _ t)); simpl; congruence.
Qed.

Lemma for_each_spread_raise (t : DataFrame) (ms : list Z) :
  forall d e, for_each (spread_month t) ms d = Raise e -> e = IndexError.
Proof.
  induction ms as [|m ms IH]; intros d e; simpl; [discriminate|].
  destruct (spread_month t d m) as [d'|e'] eqn:E; simpl.
  - apply IH.
  - intros H. inversion H; subst. eapply spread_month_raise; eauto.
Qed.

Lemma for_each_spread_ok (t : DataFrame) (ms : list Z) :
  (forall m, In m ms -> has_month t m) ->
  forall d, exists d',
    for_each (spread_month t) ms d = Ok d'
    /\ index d' = index d /\ columns d' = columns d.
Proof.
  induction ms as [|m ms IH]; intros Hms d; simpl; [eauto|].
  destruct (spread_month_ok d (Hms m (or_introl eq_refl))) as [row ->].
  simpl.
  destruct (IH (fun m' H => Hms m' (or_intror H))
               (setitem_mask (fun p => month p =? m) row d))
    as [d' [-> [Hi Hc]]].
  exists d'. split; [reflexivity|]. split.
  - rewrite Hi. apply index_setitem_mask.
  - rewrite Hc. reflexivity.
Qed.

(** ** Monthly histories *)

Lemma monthly_history_inv (df : DataFrame) :
  monthly_history df = true ->
  index_freq df = MonthEnd
  /\ (12 <= length (rows df))%nat
  /\ keys (index df)
     = map (fun i => hd 0 (keys (index df)) + Z.of_nat i)
           (seq 0 (length (rows df))).
Proof.
  unfold monthly_history. intros H.
  apply andb_true_iff in H. destruct H as [H H3].
  apply andb_true_iff in H. destruct H as [H1 H2].
  split; [|split].
  - simpl in H1. destruct (index_freq df); try discriminate. reflexivity.
  - now apply Nat.leb_le.
  - pose proof (contiguous_range _ H2) as E.
    simpl in E. rewrite length_map in E. exact E.
Qed.

Lemma trailing_keys (df : DataFrame) :
  monthly_history df = true ->
  keys (index (iloc_last 12 df))
  = map (fun i => hd 0 (keys (index df)) + Z.of_nat i)
        (seq (length (rows df) - 12) 12).
Proof.
  intros H. destruct (monthly_history_inv _ H) as [_ [Hlen Hk]].
  simpl. rewrite <- skipn_map. simpl in Hk. rewrite Hk at 1.
  rewrite skipn_map, skipn_seq. f_equal.
  replace (length (rows df) - (length (rows df) - 12))%nat with 12%nat by lia.
  reflexivity.
Qed.

Lemma trailing_has_month (df : DataFrame) :
  monthly_history df = true ->
  forall m, 1 <= m <= 12 -> has_month (iloc_last 12 df) m.
Proof.
  intros H m Hm. pose proof (trailing_keys _ H) as Hk.
  set (k0 := hd 0 (keys (index df))) in *.
  set (K := length (rows df)) in *.
  set (base := k0 + Z.of_nat (K - 12)).
  set (delta := (m - 1 - base) mod 12).
  assert (0 <= delta < 12) as Hd by (apply Z.mod_pos_bound; lia).
  assert (In (base + delta) (keys (index (iloc_last 12 df)))) as Hin.
  { rewrite Hk. apply in_map_iff.
    exists (K - 12 + Z.to_nat delta)%nat. split.
    - unfold base. lia.
    - apply in_seq. lia. }
  simpl in Hin. apply in_map_iff in Hin. destruct Hin as [r [Hr Hin]].
  exists r. split; [exact Hin|].
  rewrite Hr. unfold month, delta.
  rewrite Zplus_mod_idemp_r.
  replace (base + (m - 1 - base)) with (m - 1) by ring.
  rewrite Z.mod_small by lia. lia.
Qed.

Lemma trailing_last_key (df : DataFrame) :
  monthly_history df = true ->
  py_index (map month (keys (index (iloc_last 12 df)))) (-1)
  = Ok (month (last (keys (index (iloc_last 12 df))) 0)).
Proof.
  intros H. rewrite py_index_map, (py_index_last 0); [reflexivity|].
  rewrite (trailing_keys _ H). discriminate.
Qed.

(** On a monthly history the function runs to its end; the table it
    returns is spelled out. *)
Lemma calc_corr_last12_monthly (df : DataFrame) :
  monthly_history df = true ->
  exists other,
    for_each (spread_month (iloc_last 12 df)) (range 1 13) df = Ok other
    /\ index other = index df
    /\ columns other = columns df
    /\ calc_corr_last12 df
       = Ok (set_index_name "mes_final"
               (getitem_mask
                  (fun p => month p =?
                            month (last (keys (index (iloc_last 12 df))) 0))
                  (rolling_corr 12 df other))).
Proof.
  intros H.
  assert (forall m, In m (range 1 13) -> has_month (iloc_last 12 df) m)
    as Hall.
  { intros m Hm. apply trailing_has_month; [exact H|].
    rewrite range_1_13 in Hm. simpl in Hm. lia. }
  destruct (for_each_spread_ok _ Hall df) as [other [Ho [Hi Hc]]].
  exists other. repeat split; try assumption.
  unfold calc_corr_last12, copy.
  destruct (monthly_history_inv _ H) as [Hf _].
  simpl freq. rewrite Hf. simpl negb. cbv iota.
  rewrite Ho. simpl bind.
  pose proof (trailing_last_key _ H) as E. simpl in E |- *.
  rewrite E. reflexivity.
Qed.

Lemma for_each_spread_months (t : DataFrame) (ms : list Z) :
  forall d d',
    for_each (spread_month t) ms d = Ok d' ->
    forall m, In m ms -> In m (map month (keys (index t))).
Proof.
  induction ms as [|m0 ms IH]; intros d d' H m Hm; [destruct Hm|].
  simpl in H.
  destruct (spread_month t d m0) as [d1|e] eqn:E; [|discriminate].
  simpl in H. destruct Hm as [<-|Hm]; [|eapply IH; eauto].
  unfold spread_month, iloc0 in E.
  destruct (rows (getitem_mask (fun p => month p =? m0) t))
    as [|r l] eqn:R; [discriminate|].
  assert (In r (rows (getitem_mask (fun p => month p =? m0) t))) as Hr
    by (rewrite R; now left).
  simpl in Hr. apply filter_In in Hr. destruct Hr as [Hr Hm0].
  apply Z.eqb_eq in Hm0. rewrite <- Hm0.
  simpl. rewrite map_map. apply in_map_iff. eauto.
Qed.

Lemma calc_corr_last12_raise (df : DataFrame) (e : exn) :
  calc_corr_last12 df = Raise e ->
  (e = FormatError /\ index_freq df <> MonthEnd)
  \/ (e = IndexError /\ index_freq df = MonthEnd).
Proof.
  unfold calc_corr_last12, copy. simpl freq.
  destruct (index_freq df); simpl negb; cbv iota;
    try (intros H; inversion H; left; split; [reflexivity|discriminate]).
  intros H. right. split; [|reflexivity].
  destruct (for_each _ _ df) as [other|e'] eqn:E; simpl in H.
  - destruct (py_index _ (-1)) as [m|e'] eqn:P; simpl in H; [discriminate|].
    inversion H; subst. eapply py_index_raise; eauto.
  - inversion H; subst. eapply for_each_spread_raise; eauto.
Qed.

Lemma calc_corr_last12_short (df : DataFrame) :
  index_freq df = MonthEnd ->
  (length (rows df) < 12)%nat ->
  calc_corr_last12 df = Raise IndexError.
Proof.
  intros Hf Hlen.
  destruct (calc_corr_last12 df) as [t|e] eqn:E.
  - exfalso. unfold calc_corr_last12, copy in E. simpl freq in E.
    rewrite Hf in E. simpl negb in E. cbv iota in E.
    destruct (for_each _ _ df) as [other|e'] eqn:L; [|discriminate].
    pose proof (for_each_spread_months _ _ _ L) as Hall.
    assert (incl (range 1 13) (map month (keys (index (iloc_last 12 df)))))
      as Hincl by (intros m Hm; now apply Hall).
    apply NoDup_incl_length in Hincl.
    + rewrite range_1_13 in Hincl. simpl in Hincl.
      rewrite !length_map, length_skipn in Hincl. lia.
    + rewrite range_1_13.
      repeat (constructor; [simpl; intuition lia|]). constructor.
  - destruct (calc_corr_last12_raise _ E) as [[_ Hn]|[-> _]];
      [contradiction | reflexivity].
Qed.

(** ** Sorting a column *)

Lemma insert_perm (x : Period * value) (l : Series) :
  Permutation (insert x l) (x :: l).
Proof.
  induction l as [|y l IH]; simpl; [reflexivity|].
  destruct (leb (snd x) (snd y)); [reflexivity|].
  rewrite IH. apply perm_swap.
Qed.

Lemma argsort_perm (l : Series) : Permutation (argsort l) l.
Proof.
  induction l as [|x l IH]; simpl; [reflexivity|].
  rewrite insert_perm. now constructor.
Qed.

Lemma filter_split_perm {A} (f : A -> bool) (l : list A) :
  Permutation (filter (fun a => negb (f a)) l ++ filter f l) l.
Proof.
  induction l as [|a l IH]; simpl; [reflexivity|].
  destruct (f a); simpl.
  - rewrite <- Permutation_middle. now constructor.
  - now constructor.
Qed.

Lemma sort_values_perm (ascending : bool) (s : Series) :
  Permutation (sort_values ascending s) s.
Proof.
  unfold sort_values.
  eapply Permutation_trans;
    [|apply (filter_split_perm (fun e => isna (snd e)) s)].
  apply Permutation_app_tail.
  destruct ascending.
  - apply argsort_perm.
  - rewrite <- Permutation_rev, argsort_perm, <- Permutation_rev.
    reflexivity.
Qed.

(** The sorted column is its defined entries followed by its missing
    ones. *)
Lemma sort_values_na_last (ascending : bool) (s : Series) :
  exists front nans,
    sort_values ascending s = front ++ nans
    /\ Forall (fun e => defined e = true) front
    /\ Forall (fun e => missing e = true) nans
    /\ length front = length (filter defined s).
Proof.
  unfold sort_values.
  set (non_nans := filter (fun e => negb (isna (snd e))) s).
  set (front := if ascending then argsort non_nans
                else rev (argsort (rev non_nans))).
  assert (Permutation front non_nans) as Hp.
  { unfold front. destruct ascending.
    - apply argsort_perm.
    - rewrite <- Permutation_rev, argsort_perm, <- Permutation_rev.
      reflexivity. }
  exists front, (filter (fun e => isna (snd e)) s).
  split; [reflexivity|]. split; [|split].
  - apply Forall_forall. intros e He.
    apply (Permutation_in _ Hp) in He. unfold non_nans in He.
    apply filter_In in He. apply He.
  - apply Forall_forall. intros e He. apply filter_In in He. apply He.
  - apply (Permutation_length Hp).
Qed.

Section Sorted.
Context {L : OrderLaws}.

Lemma insert_In (x y : Period * value) (l : Series) :
  In y (insert x l) -> y = x \/ In y l.
Proof.
  intros H. apply (Permutation_in _ (insert_perm x l)) in H.
  destruct H; auto.
Qed.

Lemma insert_sorted (x : Period * value) (l : Series) :
  defined x = true ->
  Forall (fun e => defined e = true) l ->
  StronglySorted asc l -> StronglySorted asc (insert x l).
Proof.
  intros Hx Hl Hs. induction Hs as [|y l Hs IH Hy]; simpl.
  - repeat constructor.
  - inversion Hl as [|? ? Hdy Hl']; subst.
    destruct (leb (snd x) (snd y)) eqn:E.
    + constructor; [now constructor|].
      constructor; [exact E|].
      apply Forall_forall. intros z Hz.
      rewrite Forall_forall in Hy. specialize (Hy z Hz).
      unfold asc in *. eapply leb_trans; eauto.
    + constructor; [auto|].
      apply Forall_forall. intros z Hz.
      apply insert_In in Hz. destruct Hz as [->|Hz].
      * unfold defined in Hx, Hdy.
        apply negb_true_iff in Hx, Hdy.
        destruct (leb_total (snd x) (snd y) Hx Hdy) as [T|T];
          [congruence | exact T].
      * rewrite Forall_forall in Hy. auto.
Qed.

Lemma argsort_sorted (l : Series) :
  Forall (fun e => defined e = true) l -> StronglySorted asc (argsort l).
Proof.
  induction l as [|x l IH]; intros H; simpl; [constructor|].
  inversion H; subst. apply insert_sorted; auto.
  apply Forall_forall. intros e He.
  apply (Permutation_in _ (argsort_perm l)) in He.
  rewrite Forall_forall in H3. auto.
Qed.

Lemma sorted_snoc (R : Period * value -> Period * value -> Prop)
    (x : Period * value) (l : Series) :
  StronglySorted R l -> Forall (fun y => R y x) l ->
  StronglySorted R (l ++ [x]).
Proof.
  induction 1 as [|a l Hs IH Ha]; intros Hx; simpl.
  - repeat constructor.
  - inversion Hx; subst. constructor; [auto|].
    apply Forall_app. split; [exact Ha | now constructor].
Qed.

Lemma sorted_rev (l : Series) :
  StronglySorted asc l -> StronglySorted desc (rev l).
Proof.
  induction 1 as [|x l Hs IH Hx]; simpl; [constructor|].
  apply sorted_snoc; [exact IH|].
  apply Forall_forall. intros y Hy. apply in_rev in Hy.
  rewrite Forall_forall in Hx. exact (Hx y Hy).
Qed.

(** The defined part of a column sorted with [ascending=False] goes
    down. *)
Lemma sort_values_descending (s : Series) :
  exists front nans,
    sort_values false s = front ++ nans
    /\ Forall (fun e => defined e = true) front
    /\ Forall (fun e => missing e = true) nans
    /\ StronglySorted desc front.
Proof.
  unfold sort_values.
  set (non_nans := filter (fun e => negb (isna (snd e))) s).
  exists (rev (argsort (rev non_nans))), (filter (fun e => isna (snd e)) s).
  assert (Forall (fun e => defined e = true) (rev non_nans)) as Hd.
  { apply Forall_forall. intros e He. apply in_rev in He.
    unfold non_nans in He. apply filter_In in He. apply He. }
  split; [reflexivity|]. split; [|split].
  - apply Forall_forall. intros e He. apply in_rev in He.
    apply (Permutation_in _ (argsort_perm _)) in He.
    rewrite Forall_forall in Hd. auto.
  - apply Forall_forall. intros e He. apply filter_In in He. apply He.
  - apply sorted_rev, argsort_sorted, Hd.
Qed.

End Sorted.

(** ** The outcomes of fit *)

Lemma py_index_In {A} (l : list A) (i : Z) (a : A) :
  py_index l i = Ok a -> In a l.
Proof.
  unfold py_index. destruct (_ && _); [|discriminate].
  destruct (nth_error l _) eqn:N; [|discriminate].
  intros H. inversion H; subst. eapply nth_error_In; eauto.
Qed.

Lemma py_index_pairs {A B} (l : list (A * B)) (i : Z) (a : A) :
  py_index (map fst l) i = Ok a ->
  exists b, py_index l i = Ok (a, b) /\ py_index (map snd l) i = Ok b.
Proof.
  rewrite !py_index_map.
  destruct (py_index l i) as [[a' b]|e]; simpl; [|discriminate].
  intros H. inversion H; subst. eauto.
Qed.

Lemma getitem_col_keys (col : Z) (c : DataFrame) (s : Series) :
  getitem_col col c = Ok s -> map fst s = keys (index c).
Proof.
  unfold getitem_col. destruct (position col (columns c)); [|discriminate].
  destruct (_ =? _)%nat; [|discriminate].
  intros H. inversion H; subst. simpl. rewrite map_map. reflexivity.
Qed.

Lemma getitem_col_raise (col : Z) (c : DataFrame) (e : exn) :
  getitem_col col c = Raise e -> e = KeyError \/ e = TypeError.
Proof.
  unfold getitem_col. destruct (position col (columns c)).
  - destruct (_ =? _)%nat; [discriminate|]. intros H. inversion H. auto.
  - intros H. inversion H. auto.
Qed.

Lemma loc_label_In (p : Period) (c : DataFrame) :
  In p (keys (index c)) -> exists row, loc_label p c = Ok row.
Proof.
  simpl. intros H. apply in_map_iff in H. destruct H as [r [Hr Hin]].
  unfold loc_label.
  destruct (find (fun r0 => fst r0 =? p) (rows c)) eqn:E; [eauto|].
  apply (find_none _ _ E) in Hin. apply Z.eqb_neq in Hin. contradiction.
Qed.

Lemma fit_selected (df df_corr : DataFrame) (self : SimpleCorrelation12)
    (s : Series) (p : Period) (c : value) :
  calc_corr_last12 df = Ok df_corr ->
  getitem_col (coluna self) df_corr = Ok s ->
  py_index (sort_values false s) (posicao self) = Ok (p, c) ->
  exists row,
    loc_label p df_corr = Ok row
    /\ fit df self = (fitted self df df_corr p c row, Ok tt).
Proof.
  intros Hc Hs Hp.
  assert (In p (keys (index df_corr))) as Hin.
  { rewrite <- (getitem_col_keys _ _ Hs).
    apply (Permutation_in _ (Permutation_map fst (sort_values_perm false s))).
    apply in_map_iff. exists (p, c). split; [reflexivity|].
    eapply py_index_In; eauto. }
  destruct (loc_label_In _ _ Hin) as [row Hrow].
  exists row. split; [exact Hrow|].
  unfold fit, mbind, assign, eval, attr. rewrite Hc. simpl.
  rewrite Hs. simpl. rewrite !py_index_map, Hp. simpl.
  rewrite Hrow. reflexivity.
Qed.

Lemma fit_ok_inv (df : DataFrame) (self self' : SimpleCorrelation12) :
  fit df self = (self', Ok tt) ->
  exists df_corr s p c row,
    calc_corr_last12 df = Ok df_corr
    /\ getitem_col (coluna self) df_corr = Ok s
    /\ py_index (sort_values false s) (posicao self) = Ok (p, c)
    /\ loc_label p df_corr = Ok row
    /\ self' = fitted self df df_corr p c row.
Proof.
  intros H.
  destruct (calc_corr_last12 df) as [df_corr|e] eqn:Hc.
  2:{ unfold fit, mbind, assign, eval, attr in H. rewrite Hc in H.
      discriminate. }
  destruct (getitem_col (coluna self) df_corr) as [s|e] eqn:Hs.
  2:{ unfold fit, mbind, assign, eval, attr in H. rewrite Hc in H.
      simpl in H. rewrite Hs in H. discriminate. }
  destruct (py_index (sort_values false s) (posicao self)) as [[p c]|e] eqn:Hp.
  2:{ unfold fit, mbind, assign, eval, attr in H. rewrite Hc in H.
      simpl in H. rewrite Hs in H. simpl in H.
      rewrite !py_index_map, Hp in H. discriminate. }
  destruct (fit_selected _ _ Hc Hs Hp) as [row [Hrow Hfit]].
  rewrite Hfit in H. inversion H; subst.
  exists df_corr, s, p, c, row. auto.
Qed.

(** When [fit] raises, the history has been stored, the correlation
    table too if it could be built, and nothing else was assigned. *)
Lemma fit_raise_inv (df : DataFrame) (self self' : SimpleCorrelation12)
    (e : exn) :
  fit df self = (self', Raise e) ->
  (calc_corr_last12 df = Raise e /\ self' = set_df_base (copy df) self)
  \/ (exists df_corr,
        calc_corr_last12 df = Ok df_corr
        /\ self' = set_df_correlacao df_corr (set_df_base (copy df) self)
        /\ (e = KeyError \/ e = TypeError \/ e = IndexError)).
Proof.
  intros H.
  destruct (calc_corr_last12 df) as [df_corr|e'] eqn:Hc.
  2:{ unfold fit, mbind, assign, eval, attr in H. rewrite Hc in H.
      inversion H; subst. left. auto. }
  right. exists df_corr. split; [reflexivity|].
  destruct (getitem_col (coluna self) df_corr) as [s|e'] eqn:Hs.
  2:{ unfold fit, mbind, assign, eval, attr in H. rewrite Hc in H.
      simpl in H. rewrite Hs in H. inversion H; subst.
      split; [reflexivity|].
      destruct (getitem_col_raise _ _ Hs); auto. }
  destruct (py_index (sort_values false s) (posicao self)) as [[p c]|e'] eqn:Hp.
  - destruct (fit_selected _ _ Hc Hs Hp) as [row [_ Hfit]].
    rewrite Hfit in H. discriminate.
  - unfold fit, mbind, assign, eval, attr in H. rewrite Hc in H.
    simpl in H. rewrite Hs in H. simpl in H.
    rewrite !py_index_map, Hp in H. inversion H; subst.
    split; [reflexivity|]. right. right. eapply py_index_raise; eauto.
Qed.

(** ** The outcomes of predict *)

Lemma loc_from_raise (label : Period) (df : DataFrame) (e : exn) :
  loc_from label df = Raise e -> e = KeyError.
Proof.
  unfold loc_from.
  destruct (is_monotonic_increasing _); [discriminate|].
  destruct (is_monotonic_decreasing _); [discriminate|].
  destruct (position _ _); [|congruence].
  destruct (_ =? _)%nat; congruence.
Qed.

Lemma loc_from_columns (label : Period) (df d : DataFrame) :
  loc_from label df = Ok d -> columns d = columns df.
Proof.
  unfold loc_from.
  destruct (is_monotonic_increasing _); [intros H; now inversion H|].
  destruct (is_monotonic_decreasing _); [intros H; now inversion H|].
  destruct (position _ _); [|discriminate].
  destruct (_ =? _)%nat; [|discriminate].
  intros H; now inversion H.
Qed.

Lemma fst_combine {A B} (l : list A) (l' : list B) :
  length l = length l' -> map fst (combine l l') = l.
Proof.
  revert l'. induction l as [|a l IH]; intros [|b l'] H; simpl in *;
    try discriminate; [reflexivity|].
  f_equal. apply IH. congruence.
Qed.

Lemma set_index_range (start : Period) (d out : DataFrame) :
  set_index (period_range start (length (rows d))) d = Ok out ->
  index out = period_range start (length (rows out))
  /\ columns out = columns d
  /\ map snd (rows out) = map snd (rows d).
Proof.
  unfold set_index. simpl. rewrite length_map, length_seq, Nat.eqb_refl.
  intros H. inversion H; subst; clear H. unfold index. simpl.
  assert (length (map (fun i => start + Z.of_nat i)
                      (seq 0 (length (rows d))))
          = length (map snd (rows d))) as Hl
    by (now rewrite !length_map, length_seq).
  rewrite fst_combine by exact Hl.
  rewrite length_combine, !length_map, length_seq, Nat.min_id.
  repeat split.
  clear Hl. generalize 0%nat.
  induction (rows d) as [|r l IH]; intros k; simpl; [reflexivity|].
  f_equal. apply IH.
Qed.

Lemma set_index_range_ok (start : Period) (d : DataFrame) :
  exists out, set_index (period_range start (length (rows d))) d = Ok out.
Proof.
  unfold set_index. simpl. rewrite length_map, length_seq, Nat.eqb_refl.
  eauto.
Qed.

Lemma py_slice_to_length {A} (l : list A) (n : Z) :
  0 < n -> Z.of_nat (length (py_slice_to l n)) = Z.min n (Z.of_nat (length l)).
Proof.
  intros Hn. unfold py_slice_to.
  destruct (n <? 0) eqn:E; [apply Z.ltb_lt in E; lia|].
  rewrite length_firstn. lia.
Qed.

(** [predict] reports an unfitted model exactly when no period has
    been selected. *)
Lemma predict_not_fitted (self : SimpleCorrelation12) (num_meses : option Z) :
  predict self num_meses = Raise NotFittedError <-> _period_ self = None.
Proof.
  unfold predict. split.
  - destruct (_period_ self) as [p|]; [|reflexivity]. cbn [bind].
    destruct (df_base self) as [d|]; cbn [bind]; [|discriminate].
    destruct (py_index _ (-1)) as [l|e] eqn:P; cbn [bind].
    + destruct (loc_from _ d) as [d'|e] eqn:Lf; cbn [bind].
      * unfold set_index. destruct (_ =? _)%nat; discriminate.
      * apply loc_from_raise in Lf. subst. discriminate.
    + apply py_index_raise in P. subst. discriminate.
  - intros ->. reflexivity.
Qed.

(** The shape of whatever [predict] returns. *)
Lemma predict_shape (self : SimpleCorrelation12) (num_meses : option Z)
    (out : DataFrame) :
  predict self num_meses = Ok out ->
  exists p d last_month,
    _period_ self = Some p
    /\ df_base self = Some d
    /\ py_index (keys (index d)) (-1) = Ok last_month
    /\ index out = period_range (last_month + 1) (length (rows out))
    /\ columns out = columns d.
Proof.
  unfold predict.
  destruct (_period_ self) as [p|]; [|discriminate]. cbn [bind].
  destruct (df_base self) as [d|]; cbn [bind]; [|discriminate].
  destruct (py_index _ (-1)) as [l|e] eqn:P; cbn [bind]; [|discriminate].
  destruct (loc_from _ d) as [d'|e] eqn:Lf; cbn [bind]; [|discriminate].
  intros H. apply set_index_range in H. destruct H as [Hi [Hc _]].
  exists p, d, l. repeat split; try assumption.
  rewrite Hc. exact (loc_from_columns _ _ Lf).
Qed.

(** ** predict on a monthly history *)

Lemma contiguous_monotonic (l : list Period) :
  contiguous l = true -> is_monotonic_increasing l = true.
Proof.
  induction l as [|a l IH]; [reflexivity|].
  destruct l as [|b l']; [reflexivity|].
  intros H. cbn [contiguous] in H. apply andb_true_iff in H.
  destruct H as [Hb Hc]. apply Z.eqb_eq in Hb.
  cbn [is_monotonic_increasing]. apply andb_true_iff. split.
  - apply Z.leb_le. lia.
  - apply IH, Hc.
Qed.

Lemma count_below (b : Z) (K : nat) :
  forall k0,
    length (filter (fun k => k <? b)
              (map (fun i => k0 + Z.of_nat i) (seq 0 K)))
    = Z.to_nat (Z.min (Z.max (b - k0) 0) (Z.of_nat K)).
Proof.
  induction K as [|K IH]; intros k0; [simpl; lia|].
  cbn [seq map filter]. rewrite <- seq_shift, map_map.
  rewrite (map_ext (fun i => k0 + Z.of_nat (S i))
                   (fun i => (k0 + 1) + Z.of_nat i)) by (intros; lia).
  replace (k0 + Z.of_nat 0) with k0 by lia.
  destruct (k0 <? b) eqn:E.
  - apply Z.ltb_lt in E. cbn [length]. rewrite IH. lia.
  - apply Z.ltb_ge in E. rewrite IH. lia.
Qed.

Lemma last_range (k0 : Z) (K : nat) :
  last (map (fun i => k0 + Z.of_nat i) (seq 0 (S K))) 0 = k0 + Z.of_nat K.
Proof.
  rewrite seq_S, map_app. simpl map at 2. apply last_last.
Qed.

Lemma monthly_history_bounds (df : DataFrame) :
  monthly_history df = true ->
  let k0 := hd 0 (keys (index df)) in
  let M := last (keys (index df)) 0 in
  M = k0 + Z.of_nat (length (rows df)) - 1
  /\ forall p, In p (keys (index df)) -> k0 <= p <= M.
Proof.
  intros H k0 M. destruct (monthly_history_inv _ H) as [_ [Hlen Hk]].
  assert (M = k0 + Z.of_nat (length (rows df)) - 1) as HM.
  { unfold M. rewrite Hk.
    destruct (length (rows df)) as [|K] eqn:E; [lia|].
    rewrite last_range. fold k0. lia. }
  split; [exact HM|].
  intros p Hp. rewrite Hk in Hp. apply in_map_iff in Hp.
  destruct Hp as [i [Hi Hin]]. apply in_seq in Hin. fold k0 in Hi. lia.
Qed.

Lemma predict_monthly (self : SimpleCorrelation12) (p : Period)
    (df : DataFrame) (num_meses : option Z) :
  _period_ self = Some p ->
  df_base self = Some df ->
  monthly_history df = true ->
  In p (keys (index df)) ->
  let M := last (keys (index df)) 0 in
  let h := match num_meses with
           | Some n => if n =? 0 then 13 - month (p + 1) else n
           | None => 13 - month (p + 1)
           end in
  0 < h ->
  exists out,
    predict self num_meses = Ok out
    /\ index out = period_range (M + 1) (length (rows out))
    /\ columns out = columns df
    /\ Z.of_nat (length (rows out)) = Z.min h (M - p)
    /\ map snd (rows out)
       = map snd (firstn (Z.to_nat h)
                    (skipn (Z.to_nat (p + 1 - hd 0 (keys (index df))))
                       (rows df))).
Proof.
  intros Hp Hb H Hin M h Hh.
  destruct (monthly_history_inv _ H) as [_ [Hlen Hk]].
  destruct (monthly_history_bounds _ H) as [HM Hbnd].
  specialize (Hbnd p Hin). fold M in HM, Hbnd.
  set (k0 := hd 0 (keys (index df))) in *.
  assert (contiguous (keys (index df)) = true) as Hc.
  { unfold monthly_history in H. apply andb_true_iff in H.
    destruct H as [H _]. apply andb_true_iff in H. apply H. }
  assert (py_index (keys (index df)) (-1) = Ok M) as Hlast.
  { apply py_index_last. rewrite Hk.
    destruct (length (rows df)); [lia | discriminate]. }
  assert (loc_from (p + 1) df
          = Ok (with_rows df (skipn (Z.to_nat (p + 1 - k0)) (rows df))))
    as Hloc.
  { unfold loc_from. rewrite (contiguous_monotonic _ Hc).
    rewrite Hk at 1. rewrite count_below. fold k0.
    do 3 f_equal. lia. }
  set (sel := iloc_to h (with_rows df (skipn (Z.to_nat (p + 1 - k0)) (rows df)))).
  destruct (set_index_range_ok (M + 1) sel) as [out Hout].
  assert (predict self num_meses = Ok out) as Hpred.
  { unfold predict. rewrite Hp, Hb. cbn [bind]. rewrite Hlast. cbn [bind].
    rewrite Hloc. cbn [bind]. exact Hout. }
  exists out. split; [exact Hpred|].
  destruct (set_index_range _ _ Hout) as [Hi [Hcol Hrows]].
  split; [exact Hi|]. split; [exact Hcol|].
  assert (rows sel = firstn (Z.to_nat h)
                       (skipn (Z.to_nat (p + 1 - k0)) (rows df))) as Hsel.
  { unfold sel, iloc_to, with_rows, py_slice_to. cbn [rows].
    destruct (h <? 0) eqn:E; [apply Z.ltb_lt in E; lia | reflexivity]. }
  split.
  - rewrite <- (length_map snd), Hrows, length_map, Hsel.
    rewrite length_firstn, length_skipn. lia.
  - rewrite Hrows, Hsel. reflexivity.
Qed.

(** ** The trailing window against itself *)

Lemma iloc0_month_row (t : DataFrame) (m : Z) (row : list value) :
  iloc0 (getitem_mask (fun p => month p =? m) t) = Ok row ->
  month_row t m = Some row.
Proof.
  unfold iloc0, getitem_mask, month_row. cbn [rows with_rows].
  induction (rows t) as [|r l IH]; [discriminate|].
  cbn [filter find]. destruct (month (fst r) =? m).
  - intros H. inversion H. reflexivity.
  - exact IH.
Qed.

Lemma for_each_spread_rows (t : DataFrame) (ms : list Z) :
  forall d d',
    for_each (spread_month t) ms d = Ok d' ->
    rows d' = spread_rows t ms (rows d).
Proof.
  induction ms as [|m ms IH]; intros d d' H.
  - inversion H; subst. unfold spread_rows. cbn [existsb].
    symmetry. apply map_id.
  - cbn [for_each] in H.
    destruct (spread_month t d m) as [d1|e] eqn:E; [|discriminate].
    cbn [bind] in H. rewrite (IH _ _ H). clear IH H.
    unfold spread_month in E.
    destruct (iloc0 _) as [row|e] eqn:R; [|discriminate].
    cbn [bind] in E. inversion E; subst d1; clear E.
    apply iloc0_month_row in R.
    unfold setitem_mask, spread_rows. cbn [rows with_rows].
    rewrite map_map. apply map_ext. intros r. cbn [existsb].
    destruct (month (fst r) =? m) eqn:Em; cbn [fst orb].
    + apply Z.eqb_eq in Em. rewrite Em, R.
      destruct (existsb _ ms); reflexivity.
    + reflexivity.
Qed.

Lemma spread_rows_all_months (t : DataFrame) (rs : list (Period * list value)) :
  spread_rows t (range 1 13) rs
  = map (fun r => match month_row t (month (fst r)) with
                  | Some row => (fst r, row)
                  | None => r
                  end) rs.
Proof.
  unfold spread_rows. apply map_ext. intros r.
  replace (existsb (fun m => month (fst r) =? m) (range 1 13)) with true;
    [reflexivity|].
  symmetry. apply existsb_exists. exists (month (fst r)).
  split; [|apply Z.eqb_refl].
  pose proof (month_bounds (fst r)) as Hm.
  unfold range. apply in_map_iff.
  exists (Z.to_nat (month (fst r) - 1)). split; [lia|].
  apply in_seq. cbn. lia.
Qed.

(** In the trailing window of a monthly history every calendar month
    occurs once, so each of its rows is the row of its month. *)
Lemma trailing_month_row (df : DataFrame) (r : Period * list value) :
  monthly_history df = true ->
  In r (rows (iloc_last 12 df)) ->
  month_row (iloc_last 12 df) (month (fst r)) = Some (snd r).
Proof.
  intros H Hr. pose proof (trailing_keys _ H) as Hk.
  set (t := iloc_last 12 df) in *.
  set (b := hd 0 (keys (index df))) in *.
  set (K := length (rows df)) in *.
  unfold month_row.
  destruct (find (fun r' => month (fst r') =? month (fst r)) (rows t))
    as [r0|] eqn:Fd.
  2:{ apply (find_none _ _ Fd) in Hr. rewrite Z.eqb_refl in Hr.
      discriminate. }
  apply find_some in Fd. destruct Fd as [Hr0 Hm]. apply Z.eqb_eq in Hm.
  cbn [option_map]. f_equal. f_equal.
  destruct (In_nth_error _ _ Hr) as [i Hi].
  destruct (In_nth_error _ _ Hr0) as [i0 Hi0].
  assert (forall j x, nth_error (rows t) j = Some x ->
                      (j < 12)%nat
                      /\ fst x = b + Z.of_nat (K - 12 + j)) as Hpos.
  { intros j x Hj.
    assert (nth_error (keys (index t)) j = Some (fst x)) as Hkj
      by (cbn [keys index]; rewrite nth_error_map, Hj; reflexivity).
    rewrite Hk, nth_error_map, nth_error_seq in Hkj.
    destruct (j <? 12)%nat eqn:Ej; [|discriminate].
    apply Nat.ltb_lt in Ej. cbn [option_map] in Hkj.
    inversion Hkj. split; [exact Ej | reflexivity]. }
  destruct (Hpos _ _ Hi) as [Hlt Hf].
  destruct (Hpos _ _ Hi0) as [Hlt0 Hf0].
  assert (i0 = i) as ->.
  { unfold month in Hm. rewrite Hf, Hf0 in Hm.
    pose proof (Z.div_mod (b + Z.of_nat (K - 12 + i0)) 12).
    pose proof (Z.div_mod (b + Z.of_nat (K - 12 + i)) 12).
    lia. }
  congruence.
Qed.

Lemma enumerate_snoc {A} (l : list A) (a : A) :
  forall s,
    combine (seq s (length (l ++ [a]))) (l ++ [a])
    = combine (seq s (length l)) l ++ [((s + length l)%nat, a)].
Proof.
  induction l as [|x l IH]; intros s; cbn [length app seq combine].
  - rewrite Nat.add_0_r. reflexivity.
  - f_equal. rewrite IH. do 3 f_equal. lia.
Qed.

Lemma window_trailing (w : nat) (l : list value) :
  (w <= length l)%nat ->
  window w (length l - 1) l = skipn (length l - w) l.
Proof.
  intros H. unfold window.
  destruct w as [|w];
    [cbn [firstn]; rewrite Nat.sub_0_r; symmetry; apply skipn_all|].
  replace (length l - 1 + 1 - S w)%nat with (length l - S w)%nat by lia.
  apply firstn_all2. rewrite length_skipn. lia.
Qed.

(** The exact part of the self-correlation property: on a monthly
    history the last row of the correlation table is dated by the last
    month of the history, and each of its cells is the kernel applied
    to the trailing window of the column and to that same window. *)
Lemma final_row_self_correlation (df : DataFrame) :
  monthly_history df = true ->
  exists t front,
    calc_corr_last12 df = Ok t
    /\ rows t
       = front
         ++ [(last (keys (index df)) 0,
              map (fun j =>
                     corr (column_values j (iloc_last 12 df))
                          (column_values j (iloc_last 12 df)))
                  (seq 0 (length (columns df))))].
Proof.
  intros H.
  destruct (calc_corr_last12_monthly _ H) as [other [Ho [_ [_ E]]]].
  destruct (monthly_history_inv _ H) as [_ [Hlen _]].
  pose proof (for_each_spread_rows _ _ _ Ho) as Hrows.
  rewrite spread_rows_all_months in Hrows.
  set (t := iloc_last 12 df) in *.
  set (h := fun r : Period * list value =>
              match month_row t (month (fst r)) with
              | Some row => (fst r, row)
              | None => r
              end) in *.
  assert (rows df <> []) as Hne
    by (intros E0; rewrite E0 in Hlen; simpl in Hlen; lia).
  destruct (exists_last Hne) as [init [rl Hdf]].
  assert (length (rows df) = S (length init)) as HK
    by (rewrite Hdf, length_app; simpl; lia).
  assert (last (keys (index df)) 0 = fst rl) as Hlast.
  { cbn [keys index]. rewrite Hdf, map_app. simpl map at 2.
    apply last_last. }
  assert (last (keys (index t)) 0 = fst rl) as Hlast_t.
  { rewrite <- Hlast. unfold t. cbn [keys index iloc_last with_rows rows].
    rewrite <- skipn_map. apply last_skipn. rewrite length_map. lia. }
  assert (forall j, window 12 (length init) (column_values j df)
                    = column_values j t) as Hw1.
  { intros j. unfold column_values at 1.
    replace (length init)
      with (length (map (fun r => nth j (snd r) nan) (rows df)) - 1)%nat
      by (rewrite length_map; lia).
    rewrite window_trailing by (rewrite length_map; lia).
    rewrite length_map, skipn_map. reflexivity. }
  assert (forall j, window 12 (length init) (column_values j other)
                    = column_values j t) as Hw2.
  { intros j. unfold column_values at 1.
    replace (length init)
      with (length (map (fun r => nth j (snd r) nan) (rows other)) - 1)%nat
      by (rewrite length_map, Hrows, length_map; lia).
    rewrite window_trailing by (rewrite length_map, Hrows, length_map; lia).
    rewrite length_map, skipn_map, Hrows, length_map, skipn_map.
    unfold column_values. f_equal.
    change (skipn (length (rows df) - 12) (rows df)) with (rows t).
    rewrite <- (map_id (rows t)) at 2.
    apply map_ext_in. intros r Hr.
    pose proof (trailing_month_row _ _ H Hr) as Hmr. fold t in Hmr.
    unfold h. rewrite Hmr. now destruct r. }
  eexists. eexists. split; [exact E|].
  cbn [rows set_index_name getitem_mask with_rows rolling_corr].
  rewrite Hdf at 1 2. rewrite enumerate_snoc, map_app, filter_app.
  f_equal. cbn [map filter fst Nat.add].
  fold t. rewrite Hlast_t, Z.eqb_refl, Hlast.
  replace (length init + 1 <? 12)%nat with false
    by (symmetry; apply Nat.ltb_ge; lia).
  f_equal. f_equal. apply map_ext. intros j.
  rewrite Hw1, Hw2. reflexivity.
Qed.

Lemma final_row_cells (df : DataFrame) :
  monthly_history df = true ->
  exists t front cells,
    calc_corr_last12 df = Ok t
    /\ rows t = front ++ [(last (keys (index df)) 0, cells)]
    /\ length cells = length (columns df)
    /\ (forall j, (j < length (columns df))%nat ->
          nth_error cells j
          = Some (corr (column_values j (iloc_last 12 df))
                       (column_values j (iloc_last 12 df)))).
Proof.
  intros H.
  destruct (calc_corr_last12_monthly _ H) as [other [Ho [_ [_ E]]]].
  destruct (monthly_history_inv _ H) as [_ [Hlen _]].
  pose proof (for_each_spread_rows _ _ _ Ho) as Hrows.
  rewrite spread_rows_all_months in Hrows.
  set (t := iloc_last 12 df) in *.
  set (h := fun r : Period * list value =>
              match month_row t (month (fst r)) with
              | Some row => (fst r, row)
              | None => r
              end) in *.
  assert (rows df <> []) as Hne
    by (intros E0; rewrite E0 in Hlen; simpl in Hlen; lia).
  destruct (exists_last Hne) as [init [rl Hdf]].
  assert (length (rows df) = S (length init)) as HK
    by (rewrite Hdf, length_app; simpl; lia).
  assert (last (keys (index df)) 0 = fst rl) as Hlast.
  { cbn [keys index]. rewrite Hdf, map_app. simpl map at 2.
    apply last_last. }
  assert (last (keys (index t)) 0 = fst rl) as Hlast_t.
  { rewrite <- Hlast. unfold t. cbn [keys index iloc_last with_rows rows].
    rewrite <- skipn_map. apply last_skipn. rewrite length_map. lia. }
  assert (forall j, window 12 (length init) (column_values j df)
                    = column_values j t) as Hw1.
  { intros j. unfold column_values at 1.
    replace (length init)
      with (length (map (fun r => nth j (snd r) nan) (rows df)) - 1)%nat
      by (rewrite length_map; lia).
    rewrite window_trailing by (rewrite length_map; lia).
    rewrite length_map, skipn_map. reflexivity. }
  assert (forall j, window 12 (length init) (column_values j other)
                    = column_values j t) as Hw2.
  { intros j. unfold column_values at 1.
    replace (length init)
      with (length (map (fun r => nth j (snd r) nan) (rows other)) - 1)%nat
      by (rewrite length_map, Hrows, length_map; lia).
    rewrite window_trailing by (rewrite length_map, Hrows, length_map; lia).
    rewrite length_map, skipn_map, Hrows, length_map, skipn_map.
    unfold column_values. f_equal.
    change (skipn (length (rows df) - 12) (rows df)) with (rows t).
    rewrite <- (map_id (rows t)) at 2.
    apply map_ext_in. intros r Hr.
    pose proof (trailing_month_row _ _ H Hr) as Hmr. fold t in Hmr.
    unfold h. rewrite Hmr. now destruct r. }
  eexists. eexists.
  exists (map (fun j => corr (column_values j t) (column_values j t))
              (seq 0 (length (columns df)))).
  split; [exact E|]. split; [|split].
  - cbn [rows set_index_name getitem_mask with_rows rolling_corr].
    rewrite Hdf at 1 2. rewrite enumerate_snoc, map_app, filter_app.
    f_equal. cbn [map filter fst Nat.add].
    fold t. rewrite Hlast_t, Z.eqb_refl, Hlast.
    replace (length init + 1 <? 12)%nat with false
      by (symmetry; apply Nat.ltb_ge; lia).
    f_equal. f_equal. apply map_ext. intros j.
    rewrite Hw1, Hw2. reflexivity.
  - now rewrite length_map, length_seq.
  - intros j Hj. rewrite nth_error_map.
    rewrite (nth_error_nth' (seq 0 (length (columns df))) 0%nat)
      by (rewrite length_seq; exact Hj).
    rewrite seq_nth by exact Hj. reflexivity.
Qed.


(** * The claims *)

(** C2 (as the code has it).  [calc_corr_last12] raises its format
    error exactly when the frequency of the index is not the monthly
    one: neither gaps in the index nor the number of rows are looked
    at.  A monthly index with fewer than twelve rows gets past the
    check and fails in the loop over the months with an [IndexError];
    a monthly history without gaps and with twelve rows or more
    raises nothing. *)
Theorem format_error_iff_not_monthly (df_hist : DataFrame) :
  (calc_corr_last12 df_hist = Raise FormatError
   <-> freq (index df_hist) <> MonthEnd)
  /\ (freq (index df_hist) = MonthEnd ->
      (length (rows df_hist) < 12)%nat ->
      calc_corr_last12 df_hist = Raise IndexError)
  /\ (monthly_history df_hist = true ->
      exists t, calc_corr_last12 df_hist = Ok t).
Proof.
  split; [|split].
  - split.
    + intros H. destruct (calc_corr_last12_raise _ H) as [[_ Hn]|[He _]].
      * exact Hn.
      * discriminate He.
    + intros Hn. unfold calc_corr_last12. simpl freq in *.
      destruct (index_freq df_hist); try reflexivity. contradiction.
  - apply calc_corr_last12_short.
  - intros H. destruct (calc_corr_last12_monthly _ H) as [other [_ [_ [_ E]]]].
    eauto.
Qed.

(** C8.  On a monthly history the correlation table keeps, in their
    order, exactly the months of the input index that fall in the
    calendar month of the last row of the trailing window, and it has
    the columns of the input. *)
Theorem correlation_table_rows (df_hist : DataFrame) :
  monthly_history df_hist = true ->
  exists t,
    calc_corr_last12 df_hist = Ok t
    /\ keys (index t)
       = filter (fun p => month p =?
                          month (last (keys (index (iloc_last 12 df_hist))) 0))
                (keys (index df_hist))
    /\ columns t = columns df_hist
    /\ name (index t) = Some "mes_final"%string.
Proof.
  intros H.
  destruct (calc_corr_last12_monthly _ H) as [other [_ [_ [_ E]]]].
  eexists. split; [exact E|]. split; [|split; reflexivity].
  change (keys (index (set_index_name "mes_final" ?d)))
    with (keys (index d)).
  rewrite keys_getitem_mask, index_rolling_corr. reflexivity.
Qed.


(** C6 (as the code has it).  When the history is refused by the
    check of [calc_corr_last12], [fit] lets that exception through
    unchanged; the object then holds the refused history as
    [df_base], and each of its other attributes is as before the
    call. *)
Theorem fit_refused_history (df_base0 : DataFrame)
    (self : SimpleCorrelation12) :
  freq (index df_base0) <> MonthEnd ->
  calc_corr_last12 df_base0 = Raise FormatError
  /\ fit df_base0 self = (set_df_base (copy df_base0) self,
                          Raise FormatError)
  /\ df_base (fst (fit df_base0 self)) = Some df_base0
  /\ df_correlacao (fst (fit df_base0 self)) = df_correlacao self
  /\ _period_ (fst (fit df_base0 self)) = _period_ self
  /\ correlacao_ (fst (fit df_base0 self)) = correlacao_ self
  /\ correlacao_outros_ (fst (fit df_base0 self)) = correlacao_outros_ self
  /\ mes_final_periodo_ (fst (fit df_base0 self))
     = mes_final_periodo_ self.
Proof.
  intros Hn.
  assert (calc_corr_last12 df_base0 = Raise FormatError) as Hc.
  { unfold calc_corr_last12. simpl freq in *.
    destruct (index_freq df_base0); try reflexivity. contradiction. }
  assert (fit df_base0 self
          = (set_df_base (copy df_base0) self, Raise FormatError)) as Hf.
  { unfold fit, mbind, assign, eval, attr. rewrite Hc. reflexivity. }
  rewrite Hf. repeat split; assumption.
Qed.

Lemma session_period (self : SimpleCorrelation12) (b : bool) :
  session self b -> (_period_ self = None <-> b = false).
Proof.
  induction 1 as [c pos | self self' b df Hs IH Hfit
                  | self self' b df e Hs IH Hfit].
  - split; reflexivity.
  - destruct (fit_ok_inv _ _ Hfit) as [dc [s [p [c [row [_ [_ [_ [_ ->]]]]]]]]].
    split; discriminate.
  - destruct (fit_raise_inv _ _ Hfit) as [[_ ->]|[dc [_ [-> _]]]];
      exact IH.
Qed.

(** C4 (as the code has it).  On a model object, [predict] raises the
    not-fitted exception exactly when no call of [fit] on it has
    returned: when [fit] was never called, and also when every call
    of [fit] raised. *)
Theorem not_fitted_iff_no_fit_returned (self : SimpleCorrelation12)
    (b : bool) (num_meses : option Z) :
  session self b ->
  (predict self num_meses = Raise NotFittedError <-> b = false).
Proof.
  intros H. rewrite predict_not_fitted. exact (session_period H).
Qed.

Lemma fit_monthly_period (df : DataFrame) (self self' : SimpleCorrelation12) :
  monthly_history df = true ->
  fit df self = (self', Ok tt) ->
  exists p,
    _period_ self' = Some p
    /\ df_base self' = Some df
    /\ In p (keys (index df))
    /\ month p = month (last (keys (index df)) 0).
Proof.
  intros H Hfit.
  destruct (fit_ok_inv _ _ Hfit) as [dc [s [p [c [row [Hc [_ [_ [Hrow ->]]]]]]]]].
  exists p. split; [reflexivity|]. split; [reflexivity|].
  destruct (calc_corr_last12_monthly _ H) as [other [_ [_ [_ E]]]].
  rewrite E in Hc. inversion Hc; subst dc; clear Hc.
  unfold loc_label in Hrow.
  destruct (find _ _) as [r|] eqn:Fd; [|discriminate].
  apply find_some in Fd. destruct Fd as [Hin Hk]. apply Z.eqb_eq in Hk.
  assert (In p (keys (index (getitem_mask
            (fun q => month q =?
                      month (last (keys (index (iloc_last 12 df))) 0))
            (rolling_corr 12 df other))))) as Hp.
  { simpl keys. apply in_map_iff. exists r. split; assumption. }
  rewrite keys_getitem_mask, index_rolling_corr in Hp.
  apply filter_In in Hp. destruct Hp as [Hp Hm].
  split; [exact Hp|]. apply Z.eqb_eq in Hm. rewrite Hm.
  destruct (monthly_history_inv _ H) as [_ [Hlen _]].
  f_equal. simpl keys. rewrite <- skipn_map.
  apply last_skipn. rewrite length_map. lia.
Qed.

Section Ranking.
Context {L : OrderLaws}.


End Ranking.


Lemma predict_length_le (self : SimpleCorrelation12) (p : Period)
    (num_meses : option Z) (out : DataFrame) :
  _period_ self = Some p ->
  predict self num_meses = Ok out ->
  let h := match num_meses with
           | Some n => if n =? 0 then 13 - month (p + 1) else n
           | None => 13 - month (p + 1)
           end in
  0 < h -> Z.of_nat (length (rows out)) <= h.
Proof.
  intros Hp Hout h Hh. unfold predict in Hout. rewrite Hp in Hout.
  cbn [bind] in Hout.
  destruct (df_base self) as [d|]; cbn [bind] in Hout; [|discriminate].
  destruct (py_index _ (-1)) as [l|e]; cbn [bind] in Hout; [|discriminate].
  destruct (loc_from _ d) as [d'|e]; cbn [bind] in Hout; [|discriminate].
  apply set_index_range in Hout. destruct Hout as [_ [_ Hrows]].
  rewrite <- (length_map snd), Hrows, length_map.
  unfold copy, iloc_to, with_rows. cbn [rows]. fold h.
  rewrite py_slice_to_length by exact Hh. lia.
Qed.

Lemma predict_default_eq (self : SimpleCorrelation12) (p : Period) :
  _period_ self = Some p ->
  predict self None = predict self (Some (13 - month (p + 1))).
Proof.
  intros Hp. unfold predict. rewrite Hp. cbn [bind].
  destruct (13 - month (p + 1) =? 0) eqn:E; [|reflexivity].
  apply Z.eqb_eq in E. pose proof (month_bounds (p + 1)). lia.
Qed.

Lemma period_range_nth (start : Period) (periods i : nat) :
  (i < periods)%nat ->
  nth_error (keys (period_range start periods)) i
  = Some (start + Z.of_nat i).
Proof.
  intros Hi. unfold period_range. cbn [keys].
  rewrite nth_error_map.
  rewrite (nth_error_nth' (seq 0 periods) 0%nat)
    by (rewrite length_seq; exact Hi).
  rewrite seq_nth by exact Hi. reflexivity.
Qed.

Lemma period_range_contiguous (periods : nat) (start : Period) :
  contiguous (keys (period_range start periods)) = true.
Proof.
  unfold period_range. cbn [keys].
  induction periods as [|n IH] in start |- *; [reflexivity|].
  cbn [seq map]. rewrite <- seq_shift, map_map.
  specialize (IH (start + 1)).
  rewrite (map_ext (fun i => start + Z.of_nat (S i))
                   (fun i => start + 1 + Z.of_nat i)) by (intros i; lia).
  destruct n as [|m]; [reflexivity|].
  cbn [seq map] in IH |- *. cbn [contiguous].
  cbn [contiguous] in IH. rewrite IH.
  replace (start + 1 + Z.of_nat 0) with (start + Z.of_nat 0 + 1) by lia.
  rewrite Z.eqb_refl. reflexivity.
Qed.

Lemma period_range_months (start : Period) (periods : nat) (ix : Index) :
  ix = period_range start periods ->
  freq ix = MonthEnd
  /\ length (keys ix) = periods
  /\ (forall i, (i < periods)%nat ->
        nth_error (keys ix) i = Some (start + Z.of_nat i))
  /\ contiguous (keys ix) = true.
Proof.
  intros ->. split; [reflexivity|]. split.
  - unfold period_range. cbn [keys]. now rewrite length_map, length_seq.
  - split; [intros i; apply period_range_nth|apply period_range_contiguous].
Qed.

(** C3.  Whatever table [predict] returns for a positive [num_meses]
    is indexed by consecutive months that start right after the last
    month M of the stored history: its index is monthly, the label of
    its i-th row (from 0) is M + 1 + i, and each label is the one
    before it plus one.  The table has the columns of that history and
    at most [num_meses] rows.  After [fit] has returned on a monthly
    history, [predict] does return, and the table has [num_meses] rows
    unless fewer months follow the selected period in the history, in
    which case it has those. *)
Theorem predict_reindexes :
  (forall (self : SimpleCorrelation12) (num_meses : Z) (out : DataFrame),
      0 < num_meses ->
      predict self (Some num_meses) = Ok out ->
      exists p df M,
        _period_ self = Some p
        /\ df_base self = Some df
        /\ py_index (keys (index df)) (-1) = Ok M
        /\ index out = period_range (M + 1) (length (rows out))
        /\ columns out = columns df
        /\ Z.of_nat (length (rows out)) <= num_meses
        /\ freq (index out) = MonthEnd
        /\ (forall i, (i < length (rows out))%nat ->
              nth_error (map fst (rows out)) i
              = Some (M + 1 + Z.of_nat i))
        /\ contiguous (map fst (rows out)) = true)
  /\ (forall (df_base0 : DataFrame) (self self' : SimpleCorrelation12)
             (num_meses : Z),
        monthly_history df_base0 = true ->
        fit df_base0 self = (self', Ok tt) ->
        0 < num_meses ->
        exists out p,
          predict self' (Some num_meses) = Ok out
          /\ _period_ self' = Some p
          /\ index out
             = period_range (last (keys (index df_base0)) 0 + 1)
                            (length (rows out))
          /\ columns out = columns df_base0
          /\ Z.of_nat (length (rows out)) <= num_meses
          /\ Z.of_nat (length (rows out))
             = Z.min num_meses (last (keys (index df_base0)) 0 - p)
          /\ map snd (rows out)
             = map snd
                 (firstn (Z.to_nat num_meses)
                    (skipn (Z.to_nat
                              (p + 1 - hd 0 (keys (index df_base0))))
                       (rows df_base0)))
          /\ freq (index out) = MonthEnd
          /\ (forall i, (i < length (rows out))%nat ->
                nth_error (map fst (rows out)) i
                = Some (last (keys (index df_base0)) 0 + 1 + Z.of_nat i))
          /\ contiguous (map fst (rows out)) = true).
Proof.
  split.
  - intros self n out Hn Hout.
    destruct (predict_shape _ _ Hout) as [p [d [M [Hp [Hb [HM [Hi Hc]]]]]]].
    destruct (period_range_months Hi) as [Hf [_ [Hk Hg]]].
    exists p, d, M. repeat split; try assumption.
    pose proof (@predict_length_le self p (Some n) out Hp Hout) as Hl.
    cbv beta iota zeta in Hl.
    replace (n =? 0) with false in Hl by (symmetry; apply Z.eqb_neq; lia).
    exact (Hl Hn).
  - intros df self self' n H Hfit Hn.
    destruct (fit_monthly_period _ _ H Hfit) as [p [Hp [Hb [Hin _]]]].
    pose proof (predict_monthly self' (Some n) Hp Hb H Hin) as P.
    cbv beta iota zeta in P.
    replace (n =? 0) with false in P by (symmetry; apply Z.eqb_neq; lia).
    destruct (P Hn) as [out [Hout [Hi [Hc [Hlen Hrows]]]]].
    destruct (period_range_months Hi) as [Hf [_ [Hk Hg]]].
    exists out, p. repeat split; try assumption. lia.
Qed.

(** C5.  Without [num_meses], [predict] runs as with 13 minus the
    calendar month that follows the selected period: a number from 1
    to 12, which bounds the rows returned and, on a monthly history,
    is their number unless the history ends sooner. *)
Theorem predict_default_horizon (self : SimpleCorrelation12) (p : Period) :
  _period_ self = Some p ->
  1 <= 13 - month (p + 1) <= 12
  /\ predict self None = predict self (Some (13 - month (p + 1)))
  /\ (forall out,
        predict self None = Ok out ->
        Z.of_nat (length (rows out)) <= 13 - month (p + 1))
  /\ (forall df,
        df_base self = Some df ->
        monthly_history df = true ->
        In p (keys (index df)) ->
        exists out,
          predict self None = Ok out
          /\ Z.of_nat (length (rows out))
             = Z.min (13 - month (p + 1)) (last (keys (index df)) 0 - p)).
Proof.
  intros Hp. pose proof (month_bounds (p + 1)) as Hm.
  split; [lia|]. split; [apply predict_default_eq, Hp|]. split.
  - intros out Hout.
    refine (@predict_length_le self p None out Hp Hout _). lia.
  - intros df Hb H Hin.
    pose proof (predict_monthly self None Hp Hb H Hin) as P. cbv beta iota zeta in P.
    destruct P as [out [Hout [_ [_ [Hlen _]]]]]; [lia|].
    exists out. split; assumption.
Qed.

(** C9 (as the code has it).  [predict(0)] is [predict()]: the zero is
    taken as absent and the horizon falls back to 13 minus the
    calendar month after the selected period.  On a monthly history
    the table returned is not empty when the selected period is
    before the last month, and it is empty when the selected period
    is the last month: no row of the history follows it. *)
Theorem predict_zero_is_default (self : SimpleCorrelation12) :
  predict self (Some 0) = predict self None
  /\ (forall p,
        _period_ self = Some p ->
        predict self (Some 0) = predict self (Some (13 - month (p + 1))))
  /\ (forall p df,
        _period_ self = Some p ->
        df_base self = Some df ->
        monthly_history df = true ->
        In p (keys (index df)) ->
        p < last (keys (index df)) 0 ->
        exists out,
          predict self (Some 0) = Ok out
          /\ rows out <> []
          /\ Z.of_nat (length (rows out))
             = Z.min (13 - month (p + 1)) (last (keys (index df)) 0 - p))
  /\ (forall df,
        _period_ self = Some (last (keys (index df)) 0) ->
        df_base self = Some df ->
        monthly_history df = true ->
        exists out,
          predict self (Some 0) = Ok out
          /\ rows out = []
          /\ columns out = columns df).
Proof.
  assert (predict self (Some 0) = predict self None) as E by reflexivity.
  split; [exact E|]. split; [|split].
  - intros p Hp. rewrite E. apply predict_default_eq, Hp.
  - intros p df Hp Hb H Hin Hlt. rewrite E.
    pose proof (month_bounds (p + 1)) as Hm.
    pose proof (predict_monthly self None Hp Hb H Hin) as P. cbv beta iota zeta in P.
    destruct P as [out [Hout [_ [_ [Hlen _]]]]]; [lia|].
    exists out. split; [exact Hout|]. split; [|exact Hlen].
    intros Hnil. rewrite Hnil in Hlen. cbn [length Z.of_nat] in Hlen. lia.
  - intros df Hp Hb H. rewrite E.
    set (M := last (keys (index df)) 0) in *.
    assert (In M (keys (index df))) as Hin.
    { destruct (monthly_history_inv _ H) as [_ [Hlen Hk]].
      destruct (monthly_history_bounds _ H) as [HM _]. cbv zeta in HM.
      unfold M. rewrite HM. rewrite Hk at 2. apply in_map_iff.
      exists (length (rows df) - 1)%nat. split; [lia|]. apply in_seq. lia. }
    pose proof (month_bounds (M + 1)) as Hm.
    pose proof (predict_monthly self None Hp Hb H Hin) as P. cbv beta iota zeta in P.
    destruct P as [out [Hout [_ [Hc [Hlen _]]]]]; [lia|].
    exists out. split; [exact Hout|]. split; [|exact Hc].
    fold M in Hlen. destruct (rows out) as [|r rs]; [reflexivity|].
    cbn [length] in Hlen. lia.
Qed.

End Facts.

(** * Further properties of the module *)

Section Further.
Context {value : Type} {F : Backend value}.
Local Abbreviation DataFrame := (@DataFrame value).
Local Abbreviation Series := (@Series value).
Local Abbreviation SimpleCorrelation12 := (@SimpleCorrelation12 value).

(** ** fit: what it needs and what it leaves *)

Lemma py_index_out_of_range {A} (l : list A) (i : Z) :
  ~ (- Z.of_nat (length l) <= i < Z.of_nat (length l)) ->
  py_index l i = Raise IndexError.
Proof.
  intros H. unfold py_index.
  destruct (i <? 0) eqn:E.
  - apply Z.ltb_lt in E.
    replace (0 <=? i + Z.of_nat (length l)) with false
      by (symmetry; apply Z.leb_gt; lia).
    reflexivity.
  - apply Z.ltb_ge in E.
    replace (i <? Z.of_nat (length l)) with false
      by (symmetry; apply Z.ltb_ge; lia).
    rewrite andb_false_r. reflexivity.
Qed.

Lemma py_index_within {A} (l : list A) (i : Z) :
  - Z.of_nat (length l) <= i < Z.of_nat (length l) ->
  exists a, py_index l i = Ok a.
Proof.
  intros H. unfold py_index.
  set (j := if i <? 0 then i + Z.of_nat (length l) else i).
  assert (0 <= j < Z.of_nat (length l)) as Hj.
  { unfold j. destruct (i <? 0) eqn:E;
      [apply Z.ltb_lt in E | apply Z.ltb_ge in E]; lia. }
  replace ((0 <=? j) && (j <? Z.of_nat (length l))) with true
    by (symmetry; apply andb_true_iff; split;
        [apply Z.leb_le | apply Z.ltb_lt]; lia).
  destruct (nth_error l (Z.to_nat j)) eqn:N; [eauto|].
  apply nth_error_None in N. lia.
Qed.

Lemma position_None (c : Z) (l : list Z) :
  ~ In c l -> position c l = None.
Proof.
  induction l as [|x l IH]; intros H; [reflexivity|].
  cbn [position]. destruct (x =? c) eqn:E.
  - apply Z.eqb_eq in E. exfalso. apply H. now left.
  - rewrite IH; [reflexivity|]. intros Hin. apply H. now right.
Qed.

Lemma column_length (col : Z) (df_corr : DataFrame) (s : Series) :
  getitem_col col df_corr = Ok s ->
  length (sort_values false s) = length (rows df_corr).
Proof.
  intros Hs.
  rewrite (Permutation_length (sort_values_perm false s)).
  rewrite <- (length_map fst s), (getitem_col_keys _ _ Hs).
  cbn [keys index]. apply length_map.
Qed.

Lemma fit_rank_outside (df_base0 df_corr : DataFrame)
    (self : SimpleCorrelation12) (s : Series) :
  calc_corr_last12 df_base0 = Ok df_corr ->
  getitem_col (coluna self) df_corr = Ok s ->
  ~ (- Z.of_nat (length (rows df_corr)) <= posicao self
     < Z.of_nat (length (rows df_corr))) ->
  fit df_base0 self
  = (set_df_correlacao df_corr (set_df_base (copy df_base0) self),
     Raise IndexError).
Proof.
  intros Hc Hs Hn. rewrite <- (column_length _ _ Hs) in Hn.
  assert (py_index (sort_values false s) (posicao self) = Raise IndexError)
    as Hp by (apply py_index_out_of_range; exact Hn).
  unfold fit, mbind, assign, eval, attr. rewrite Hc. cbn [bind].
  cbn [coluna posicao set_df_correlacao set_df_base].
  rewrite Hs. cbn [bind]. rewrite !py_index_map, Hp. reflexivity.
Qed.

Lemma fit_rank_inside (df_base0 df_corr : DataFrame)
    (self : SimpleCorrelation12) (s : Series) :
  calc_corr_last12 df_base0 = Ok df_corr ->
  getitem_col (coluna self) df_corr = Ok s ->
  - Z.of_nat (length (rows df_corr)) <= posicao self
  < Z.of_nat (length (rows df_corr)) ->
  exists self', fit df_base0 self = (self', Ok tt).
Proof.
  intros Hc Hs Hin. rewrite <- (column_length _ _ Hs) in Hin.
  assert (exists a, py_index (sort_values false s) (posicao self) = Ok a)
    as [[p c] Hp] by (apply py_index_within; exact Hin).
  destruct (fit_selected _ _ Hc Hs Hp) as [row [_ Hfit]]. eauto.
Qed.

(** X4.  Once the correlation table is built and holds the reference
    column, [fit] returns exactly when [posicao] is an index Python
    accepts for the rows of the table, from minus their number up to
    their number less one; otherwise it raises [IndexError], having
    stored the history and the table and nothing else. *)
Theorem fit_rank_in_range (df_base0 df_corr : DataFrame)
    (self : SimpleCorrelation12) (s : Series) :
  calc_corr_last12 df_base0 = Ok df_corr ->
  getitem_col (coluna self) df_corr = Ok s ->
  ((exists self', fit df_base0 self = (self', Ok tt))
   <-> - Z.of_nat (length (rows df_corr)) <= posicao self
       < Z.of_nat (length (rows df_corr)))
  /\ (~ (- Z.of_nat (length (rows df_corr)) <= posicao self
         < Z.of_nat (length (rows df_corr))) ->
      fit df_base0 self
      = (set_df_correlacao df_corr (set_df_base (copy df_base0) self),
         Raise IndexError)).
Proof.
  intros Hc Hs.
  assert (~ (- Z.of_nat (length (rows df_corr)) <= posicao self
             < Z.of_nat (length (rows df_corr))) ->
          fit df_base0 self
          = (set_df_correlacao df_corr (set_df_base (copy df_base0) self),
             Raise IndexError)) as Hout
    by (intros Hn; eapply fit_rank_outside; eassumption).
  split; [|exact Hout].
  split.
  - intros [self' Hfit].
    destruct (Z_le_dec (- Z.of_nat (length (rows df_corr))) (posicao self))
      as [H1|H1];
      [destruct (Z_lt_dec (posicao self) (Z.of_nat (length (rows df_corr))))
         as [H2|H2]; [lia|]|];
      (rewrite Hout in Hfit by lia; discriminate Hfit).
  - intros Hin. eapply fit_rank_inside; eassumption.
Qed.

(** X5.  When [coluna] labels no column of the correlation table,
    [fit] raises [KeyError]; the history and the table have been
    stored, no period has been selected. *)
Theorem fit_unknown_column (df_base0 df_corr : DataFrame)
    (self : SimpleCorrelation12) :
  calc_corr_last12 df_base0 = Ok df_corr ->
  ~ In (coluna self) (columns df_corr) ->
  fit df_base0 self
  = (set_df_correlacao df_corr (set_df_base (copy df_base0) self),
     Raise KeyError)
  /\ _period_ (fst (fit df_base0 self)) = _period_ self.
Proof.
  intros Hc Hn.
  assert (fit df_base0 self
          = (set_df_correlacao df_corr (set_df_base (copy df_base0) self),
             Raise KeyError)) as Hfit.
  { unfold fit, mbind, assign, eval, attr. rewrite Hc. cbn [bind].
    cbn [coluna posicao set_df_correlacao set_df_base].
    unfold getitem_col. rewrite (position_None _ _ Hn). reflexivity. }
  rewrite Hfit. split; reflexivity.
Qed.

(** X6.  A [fit] that returns replaces every attribute it computes:
    the object it leaves depends on [coluna], [posicao] and the
    history only, not on what earlier calls had stored. *)
Theorem fit_replaces_state (df_base0 : DataFrame)
    (self other self' : SimpleCorrelation12) :
  fit df_base0 self = (self', Ok tt) ->
  coluna other = coluna self ->
  posicao other = posicao self ->
  fit df_base0 other = (self', Ok tt).
Proof.
  intros Hfit Hcol Hpos.
  destruct (fit_ok_inv _ _ Hfit)
    as [dc [s [p [c [row [Hc [Hs [Hp [Hrow ->]]]]]]]]].
  rewrite <- Hcol in Hs. rewrite <- Hpos in Hp.
  destruct (fit_selected _ _ Hc Hs Hp) as [row' [Hrow' Hfit']].
  rewrite Hfit'. rewrite Hrow in Hrow'. inversion Hrow'; subst row'.
  unfold fitted. rewrite Hcol, Hpos. reflexivity.
Qed.

(** X7.  When a call of [fit] raises on a model that an earlier call
    had fitted, the model keeps the period and correlations of the
    earlier call but holds the new history: [predict] no longer
    reports an unfitted model and reads the old period against the
    new history. *)
Theorem refit_failure_keeps_period (df1 df2 : DataFrame)
    (self s1 s2 : SimpleCorrelation12) (e : exn) :
  fit df1 self = (s1, Ok tt) ->
  fit df2 s1 = (s2, Raise e) ->
  df_base s2 = Some df2
  /\ _period_ s2 = _period_ s1
  /\ correlacao_ s2 = correlacao_ s1
  /\ correlacao_outros_ s2 = correlacao_outros_ s1
  /\ mes_final_periodo_ s2 = mes_final_periodo_ s1
  /\ (exists p, _period_ s2 = Some p)
  /\ forall num_meses, predict s2 num_meses <> Raise NotFittedError.
Proof.
  intros H1 H2.
  destruct (fit_ok_inv _ _ H1) as [dc [s [p [c [row [_ [_ [_ [_ E1]]]]]]]]].
  assert (df_base s2 = Some df2 /\ _period_ s2 = _period_ s1
          /\ correlacao_ s2 = correlacao_ s1
          /\ correlacao_outros_ s2 = correlacao_outros_ s1
          /\ mes_final_periodo_ s2 = mes_final_periodo_ s1) as Hst.
  { destruct (fit_raise_inv _ _ H2) as [[_ ->]|[dc2 [_ [-> _]]]];
      repeat split; reflexivity. }
  destruct Hst as [Hb [Hp [Hc [Ho Hm]]]].
  repeat split; try assumption.
  - exists p. rewrite Hp, E1. reflexivity.
  - intros n Hn. apply predict_not_fitted in Hn.
    rewrite Hp, E1 in Hn. discriminate Hn.
Qed.

(** ** calc_corr_last12: the rows and the cells of the table *)

Lemma monthly_nth_key (df : DataFrame) (i : nat) (r : Period * list value) :
  monthly_history df = true ->
  nth_error (rows df) i = Some r ->
  fst r = hd 0 (keys (index df)) + Z.of_nat i /\ (i < length (rows df))%nat.
Proof.
  intros H Hi. destruct (monthly_history_inv _ H) as [_ [_ Hk]].
  assert (nth_error (keys (index df)) i = Some (fst r)) as Hki
    by (cbn [keys index]; rewrite nth_error_map, Hi; reflexivity).
  rewrite Hk, nth_error_map, nth_error_seq in Hki.
  destruct (i <? length (rows df))%nat eqn:E; [|discriminate].
  apply Nat.ltb_lt in E. cbn [option_map] in Hki. inversion Hki.
  split; [reflexivity | exact E].
Qed.

Lemma trailing_last_eq (df : DataFrame) :
  monthly_history df = true ->
  last (keys (index (iloc_last 12 df))) 0 = last (keys (index df)) 0.
Proof.
  intros H. destruct (monthly_history_inv _ H) as [_ [Hlen _]].
  cbn [keys index iloc_last with_rows rows].
  rewrite <- skipn_map. apply last_skipn. rewrite length_map. lia.
Qed.

Lemma in_enumerate {A} (l : list A) :
  forall s i a,
    In (i, a) (combine (seq s (length l)) l) ->
    (s <= i)%nat /\ nth_error l (i - s) = Some a.
Proof.
  induction l as [|x l IH]; intros s i a H; [destruct H|].
  cbn [length seq combine] in H. destruct H as [H|H].
  - inversion H; subst. split; [lia|]. rewrite Nat.sub_diag. reflexivity.
  - apply IH in H. destruct H as [Hs Hn]. split; [lia|].
    replace (i - s)%nat with (S (i - S s)) by lia. exact Hn.
Qed.

Lemma rolling_corr_row (w : nat) (df other : DataFrame)
    (r : Period * list value) :
  In r (rows (rolling_corr w df other)) ->
  exists i r0,
    nth_error (rows df) i = Some r0
    /\ fst r = fst r0
    /\ snd r
       = map (fun j =>
                if (i + 1 <? w)%nat then nan
                else corr (window w i (column_values j df))
                          (window w i (column_values j other)))
             (seq 0 (length (columns df))).
Proof.
  unfold rolling_corr. cbn [rows with_rows]. intros H.
  apply in_map_iff in H. destruct H as [[i r0] [E Hin]].
  apply in_enumerate in Hin. destruct Hin as [_ Hn].
  rewrite Nat.sub_0_r in Hn. exists i, r0. subst r.
  split; [exact Hn|]. split; reflexivity.
Qed.

(** In the table made by the loop, the twelve rows that end at a row
    of the same calendar month as the last one are the trailing window
    itself. *)
Lemma window_other_is_trailing (df other : DataFrame) (i j : nat) :
  monthly_history df = true ->
  rows other = spread_rows (iloc_last 12 df) (range 1 13) (rows df) ->
  (11 <= i < length (rows df))%nat ->
  month (hd 0 (keys (index df)) + Z.of_nat i)
  = month (last (keys (index df)) 0) ->
  window 12 i (column_values j other)
  = column_values j (iloc_last 12 df).
Proof.
  intros H Hrows Hi Hm.
  destruct (monthly_history_inv _ H) as [_ [Hlen _]].
  destruct (monthly_history_bounds _ H) as [HM _]. cbv zeta in HM.
  rewrite spread_rows_all_months in Hrows.
  set (k0 := hd 0 (keys (index df))) in *.
  set (K := length (rows df)) in *.
  set (t := iloc_last 12 df).
  apply nth_error_ext. intros d.
  unfold window, column_values.
  rewrite nth_error_firstn, nth_error_skipn, !nth_error_map, Hrows,
    nth_error_map.
  change (rows t) with (skipn (K - 12) (rows df)).
  rewrite nth_error_skipn.
  destruct (d <? 12)%nat eqn:Ed.
  - apply Nat.ltb_lt in Ed.
    destruct (nth_error (rows df) (i + 1 - 12 + d)) as [a|] eqn:Ea.
    2:{ apply nth_error_None in Ea. fold K in Ea. lia. }
    destruct (nth_error (rows df) (K - 12 + d)) as [b|] eqn:Eb.
    2:{ apply nth_error_None in Eb. fold K in Eb. lia. }
    cbn [option_map]. f_equal.
    destruct (monthly_nth_key _ _ H Ea) as [Hka _].
    destruct (monthly_nth_key _ _ H Eb) as [Hkb _].
    fold k0 in Hka, Hkb.
    assert (In b (rows t)) as Hb.
    { change (rows t) with (skipn (K - 12) (rows df)).
      apply (nth_error_In _ d). rewrite nth_error_skipn. exact Eb. }
    assert (month (fst a) = month (fst b)) as Hab.
    { rewrite Hka, Hkb. rewrite HM in Hm. unfold month in *.
      pose proof (Z.div_mod (k0 + Z.of_nat i) 12).
      pose proof (Z.div_mod (k0 + Z.of_nat K - 1) 12).
      pose proof (Z.div_mod (k0 + Z.of_nat (i + 1 - 12 + d)) 12).
      pose proof (Z.div_mod (k0 + Z.of_nat (K - 12 + d)) 12).
      pose proof (Z.mod_pos_bound (k0 + Z.of_nat i) 12).
      pose proof (Z.mod_pos_bound (k0 + Z.of_nat K - 1) 12).
      pose proof (Z.mod_pos_bound (k0 + Z.of_nat (i + 1 - 12 + d)) 12).
      pose proof (Z.mod_pos_bound (k0 + Z.of_nat (K - 12 + d)) 12).
      lia. }
    pose proof (trailing_month_row _ _ H Hb) as Hmr.
    rewrite Hab, Hmr. reflexivity.
  - apply Nat.ltb_ge in Ed.
    destruct (nth_error (rows df) (K - 12 + d)) as [b|] eqn:Eb;
      [|reflexivity].
    destruct (monthly_nth_key _ _ H Eb) as [_ Hlt]. fold K in Hlt. lia.
Qed.

(** X3.  Every row of the correlation table of a monthly history is
    the row of some position [i] of the history.  When fewer than
    twelve rows end there, its cells are all NaN; otherwise the cell
    of each column is the kernel applied to the twelve values of the
    column that end at [i] and to the last twelve values of the
    column. *)
Theorem correlation_table_cells (df_hist : DataFrame) :
  monthly_history df_hist = true ->
  exists t,
    calc_corr_last12 df_hist = Ok t
    /\ forall r, In r (rows t) ->
         exists i,
           (i < length (rows df_hist))%nat
           /\ fst r = hd 0 (keys (index df_hist)) + Z.of_nat i
           /\ snd r
              = if (i <? 11)%nat
                then repeat nan (length (columns df_hist))
                else map (fun j =>
                            corr (window 12 i (column_values j df_hist))
                                 (column_values j (iloc_last 12 df_hist)))
                         (seq 0 (length (columns df_hist))).
Proof.
  intros H.
  destruct (calc_corr_last12_monthly _ H) as [other [Ho [_ [_ E]]]].
  pose proof (for_each_spread_rows _ _ _ Ho) as Hrows.
  eexists. split; [exact E|].
  intros r Hr. cbn [rows set_index_name getitem_mask with_rows] in Hr.
  apply filter_In in Hr. destruct Hr as [Hr Hmask].
  apply Z.eqb_eq in Hmask. rewrite (trailing_last_eq _ H) in Hmask.
  destruct (rolling_corr_row _ _ _ _ Hr) as [i [r0 [Hi [Hk Hcells]]]].
  destruct (monthly_nth_key _ _ H Hi) as [Hk0 Hlt].
  exists i. split; [exact Hlt|]. split; [congruence|].
  rewrite Hcells. destruct (i <? 11)%nat eqn:Ei.
  - apply Nat.ltb_lt in Ei.
    replace (i + 1 <? 12)%nat with true
      by (symmetry; apply Nat.ltb_lt; lia).
    rewrite map_const, length_seq. reflexivity.
  - apply Nat.ltb_ge in Ei.
    replace (i + 1 <? 12)%nat with false
      by (symmetry; apply Nat.ltb_ge; lia).
    apply map_ext. intros j. f_equal.
    apply window_other_is_trailing; try assumption; [lia|].
    rewrite <- Hk0, <- Hk. exact Hmask.
Qed.

Lemma count_residue (c : Z) :
  0 <= c < 12 ->
  forall K,
    Z.of_nat (length (filter (fun i => Z.of_nat i mod 12 =? c) (seq 0 K)))
    = (Z.of_nat K + 11 - c) / 12.
Proof.
  intros Hc. induction K as [|K IH].
  - cbn [seq filter length]. symmetry. apply Z.div_small. lia.
  - rewrite seq_S, filter_app, length_app, Nat2Z.inj_add, IH.
    cbn [Nat.add filter].
    pose proof (Z.div_mod (Z.of_nat K + 11 - c) 12).
    pose proof (Z.mod_pos_bound (Z.of_nat K + 11 - c) 12).
    pose proof (Z.div_mod (Z.of_nat (S K) + 11 - c) 12).
    pose proof (Z.mod_pos_bound (Z.of_nat (S K) + 11 - c) 12).
    pose proof (Z.div_mod (Z.of_nat K) 12).
    pose proof (Z.mod_pos_bound (Z.of_nat K) 12).
    destruct (Z.eqb_spec (Z.of_nat K mod 12) c); cbn [length]; lia.
Qed.

Lemma table_row_count (df_hist : DataFrame) :
  monthly_history df_hist = true ->
  exists t,
    calc_corr_last12 df_hist = Ok t
    /\ columns t = columns df_hist
    /\ Z.of_nat (length (rows t))
       = (Z.of_nat (length (rows df_hist)) - 1) / 12 + 1.
Proof.
  intros H.
  destruct (calc_corr_last12_monthly _ H) as [other [_ [_ [_ E]]]].
  destruct (monthly_history_inv _ H) as [_ [Hlen Hk]].
  destruct (monthly_history_bounds _ H) as [HM _]. cbv zeta in HM.
  eexists. split; [exact E|]. split; [reflexivity|].
  rewrite <- (length_map fst).
  change (map fst (rows ?d)) with (keys (index d)).
  change (keys (index (set_index_name "mes_final" ?d)))
    with (keys (index d)).
  rewrite keys_getitem_mask, index_rolling_corr, (trailing_last_eq _ H).
  set (k0 := hd 0 (keys (index df_hist))) in *.
  set (K := length (rows df_hist)) in *.
  rewrite HM, Hk, filter_map_swap, length_map.
  rewrite (filter_ext _
             (fun i => Z.of_nat i mod 12 =? (Z.of_nat K - 1) mod 12)).
  - rewrite count_residue by (apply Z.mod_pos_bound; lia).
    pose proof (Z.div_mod (Z.of_nat K - 1) 12).
    pose proof (Z.mod_pos_bound (Z.of_nat K - 1) 12).
    pose proof (Z.div_mod
                  (Z.of_nat K + 11 - (Z.of_nat K - 1) mod 12) 12).
    pose proof (Z.mod_pos_bound
                  (Z.of_nat K + 11 - (Z.of_nat K - 1) mod 12) 12).
    lia.
  - intros i. unfold month.
    pose proof (Z.div_mod (k0 + Z.of_nat i) 12).
    pose proof (Z.mod_pos_bound (k0 + Z.of_nat i) 12).
    pose proof (Z.div_mod (k0 + Z.of_nat K - 1) 12).
    pose proof (Z.mod_pos_bound (k0 + Z.of_nat K - 1) 12).
    pose proof (Z.div_mod (Z.of_nat i) 12).
    pose proof (Z.mod_pos_bound (Z.of_nat i) 12).
    pose proof (Z.div_mod (Z.of_nat K - 1) 12).
    pose proof (Z.mod_pos_bound (Z.of_nat K - 1) 12).
    destruct (Z.eqb_spec ((k0 + Z.of_nat i) mod 12 + 1)
                         ((k0 + Z.of_nat K - 1) mod 12 + 1));
      destruct (Z.eqb_spec (Z.of_nat i mod 12) ((Z.of_nat K - 1) mod 12));
      try reflexivity; lia.
Qed.

(** X2.  The correlation table of a monthly history of K rows has
    (K - 1) / 12 + 1 rows, one for each year back from the last month;
    every row falls in the calendar month of the last row of the
    history and has one cell for each column. *)
Theorem correlation_table_shape (df_hist : DataFrame) :
  monthly_history df_hist = true ->
  exists t,
    calc_corr_last12 df_hist = Ok t
    /\ Z.of_nat (length (rows t))
       = (Z.of_nat (length (rows df_hist)) - 1) / 12 + 1
    /\ Forall (fun r => month (fst r)
                        = month (last (keys (index df_hist)) 0)) (rows t)
    /\ Forall (fun r => length (snd r) = length (columns df_hist)) (rows t).
Proof.
  intros H.
  destruct (table_row_count _ H) as [t [E [_ Hn]]].
  exists t. split; [exact E|]. split; [exact Hn|].
  destruct (calc_corr_last12_monthly _ H) as [other [_ [_ [_ E']]]].
  rewrite E' in E. inversion E; subst t; clear E.
  split.
  - apply Forall_forall. intros r Hr.
    cbn [rows set_index_name getitem_mask with_rows] in Hr.
    apply filter_In in Hr. destruct Hr as [_ Hm].
    apply Z.eqb_eq in Hm. rewrite Hm. f_equal. exact (trailing_last_eq _ H).
  - apply Forall_forall. intros r Hr.
    cbn [rows set_index_name getitem_mask with_rows] in Hr.
    apply filter_In in Hr. destruct Hr as [Hr _].
    destruct (rolling_corr_row _ _ _ _ Hr) as [i [r0 [_ [_ Hcells]]]].
    rewrite Hcells, length_map, length_seq. reflexivity.
Qed.

(** ** fit on a monthly history: what the attributes hold *)

Lemma loc_label_monthly (df : DataFrame) (i : nat) (r : Period * list value) :
  monthly_history df = true ->
  nth_error (rows df) i = Some r ->
  loc_label (fst r) df = Ok (snd r).
Proof.
  intros H Hi. unfold loc_label.
  destruct (find (fun r0 => fst r0 =? fst r) (rows df)) as [r2|] eqn:Fd.
  - apply find_some in Fd. destruct Fd as [Hin Hk]. apply Z.eqb_eq in Hk.
    destruct (In_nth_error _ _ Hin) as [i2 Hi2].
    destruct (monthly_nth_key _ _ H Hi) as [Hk1 _].
    destruct (monthly_nth_key _ _ H Hi2) as [Hk2 _].
    assert (hd 0 (keys (index df)) + Z.of_nat i2
            = hd 0 (keys (index df)) + Z.of_nat i) as Hii
      by (rewrite <- Hk1, <- Hk2; exact Hk).
    assert (i2 = i) as -> by lia.
    pose proof (eq_trans (eq_sym Hi2) Hi) as E. inversion E. reflexivity.
  - apply nth_error_In in Hi. apply (find_none _ _ Fd) in Hi.
    rewrite Z.eqb_refl in Hi. discriminate Hi.
Qed.

Lemma position_Some_In (c : Z) (l : list Z) (j : nat) :
  position c l = Some j -> nth_error l j = Some c.
Proof.
  revert j. induction l as [|x l IH]; intros j H; [discriminate|].
  cbn [position] in H. destruct (x =? c) eqn:E.
  - inversion H; subst. apply Z.eqb_eq in E. subst. reflexivity.
  - destruct (position c l) as [j'|]; [|discriminate].
    inversion H; subst. cbn [nth_error]. now apply IH.
Qed.

Lemma selected_row_cell (df_base0 t : DataFrame) (col : Z) (s : Series)
    (pos : Z) (p : Period) (c : value) (row : list value) :
  monthly_history df_base0 = true ->
  calc_corr_last12 df_base0 = Ok t ->
  getitem_col col t = Ok s ->
  py_index (sort_values false s) pos = Ok (p, c) ->
  loc_label p t = Ok row ->
  exists j,
    nth_error (columns df_base0) j = Some col
    /\ length row = length (columns df_base0)
    /\ c = nth j row nan
    /\ In (p, row) (rows t).
Proof.
  intros H Hc Hs Hp Hrow.
  assert (In (p, row) (rows t)) as Hrt.
  { unfold loc_label in Hrow.
    destruct (find _ _) as [r|] eqn:Fd; [|discriminate].
    inversion Hrow; subst row; clear Hrow.
    apply find_some in Fd. destruct Fd as [Hr Hk]. apply Z.eqb_eq in Hk.
    destruct r as [kr cr]. cbn [fst snd] in *. subst kr. exact Hr. }
  destruct (calc_corr_last12_monthly _ H) as [other [_ [_ [_ E]]]].
  rewrite E in Hc. inversion Hc; subst t; clear Hc.
  unfold getitem_col in Hs.
  cbn [columns set_index_name getitem_mask with_rows rolling_corr] in Hs.
  destruct (position col (columns df_base0)) as [j|] eqn:Ej;
    [|discriminate].
  destruct (_ =? 1)%nat; [|discriminate].
  inversion Hs; subst s; clear Hs.
  exists j.
  split; [apply position_Some_In, Ej|].
  assert (In (p, c)
            (map (fun r => (fst r, nth j (snd r) nan))
               (rows (set_index_name "mes_final"
                        (getitem_mask
                           (fun q => month q =?
                              month (last (keys (index
                                        (iloc_last 12 df_base0))) 0))
                           (rolling_corr 12 df_base0 other))))))
    as Hin.
  { apply (Permutation_in _ (sort_values_perm false _)).
    eapply py_index_In; eauto. }
  apply in_map_iff in Hin. destruct Hin as [r [Er Hr]].
  inversion Er; subst p c; clear Er.
  unfold loc_label in Hrow.
  destruct (find _ _) as [r2|] eqn:Fd; [|discriminate].
  inversion Hrow; subst row; clear Hrow.
  apply find_some in Fd. destruct Fd as [Hr2 Hk2]. apply Z.eqb_eq in Hk2.
  cbn [rows set_index_name getitem_mask with_rows] in Hr, Hr2.
  apply filter_In in Hr. destruct Hr as [Hr _].
  apply filter_In in Hr2. destruct Hr2 as [Hr2 _].
  destruct (rolling_corr_row _ _ _ _ Hr) as [i [a [Hi [Hka Hca]]]].
  destruct (rolling_corr_row _ _ _ _ Hr2) as [i2 [a2 [Hi2 [Hka2 Hca2]]]].
  destruct (monthly_nth_key _ _ H Hi) as [Hk _].
  destruct (monthly_nth_key _ _ H Hi2) as [Hk' _].
  assert (hd 0 (keys (index df_base0)) + Z.of_nat i2
          = hd 0 (keys (index df_base0)) + Z.of_nat i) as Hii
    by (rewrite <- Hk, <- Hk', <- Hka, <- Hka2; exact Hk2).
  assert (i2 = i) as -> by lia.
  destruct r as [kr cr], r2 as [kr2 cr2]. cbn [fst snd] in *.
  subst cr cr2. split; [|split; [reflexivity|exact Hrt]].
  rewrite length_map, length_seq. reflexivity.
Qed.

(** X8.  After [fit] has returned on a monthly history, the
    attributes tell one story: [df_correlacao] is the correlation
    table of the history, the row kept in [correlacao_outros_] is the
    row of that table at the selected period, it has one cell for
    each column, the correlation kept in [correlacao_] is its cell in
    the column [coluna], it is the entry of rank [posicao] of that
    column sorted downwards, and the label is the selected period
    written as year and month. *)
Theorem fit_attributes_agree (df_base0 : DataFrame)
    (self self' : SimpleCorrelation12) :
  monthly_history df_base0 = true ->
  fit df_base0 self = (self', Ok tt) ->
  exists p j row,
    _period_ self' = Some p
    /\ nth_error (columns df_base0) j = Some (coluna self)
    /\ correlacao_outros_ self' = Some row
    /\ length row = length (columns df_base0)
    /\ correlacao_ self' = Some (nth j row nan)
    /\ mes_final_periodo_ self' = Some (strftime_Ym p)
    /\ df_base self' = Some df_base0
    /\ exists t s,
         calc_corr_last12 df_base0 = Ok t
         /\ df_correlacao self' = Some t
         /\ loc_label p t = Ok row
         /\ In (p, row) (rows t)
         /\ getitem_col (coluna self) t = Ok s
         /\ py_index (sort_values false s) (posicao self)
            = Ok (p, nth j row nan).
Proof.
  intros H Hfit.
  destruct (fit_ok_inv _ _ Hfit)
    as [t [s [p [c [row [Hc [Hs [Hp [Hrow ->]]]]]]]]].
  assert (exists j,
             nth_error (columns df_base0) j = Some (coluna self)
             /\ length row = length (columns df_base0)
             /\ c = nth j row nan
             /\ In (p, row) (rows t)) as [j [Hj [Hlen [Ecell Hin]]]]
    by (eapply selected_row_cell; eassumption).
  exists p, j, row. cbn [_period_ correlacao_outros_ correlacao_
                           mes_final_periodo_ df_base df_correlacao fitted].
  split; [reflexivity|]. split; [exact Hj|]. split; [reflexivity|].
  split; [exact Hlen|]. split; [now rewrite Ecell|].
  split; [reflexivity|]. split; [reflexivity|].
  exists t, s. split; [exact Hc|]. split; [reflexivity|].
  split; [exact Hrow|]. split; [exact Hin|]. split; [exact Hs|].
  rewrite <- Ecell. exact Hp.
Qed.

(** ** predict: what is returned for every horizon *)

Lemma monthly_last_in (df : DataFrame) :
  monthly_history df = true ->
  In (last (keys (index df)) 0) (keys (index df)).
Proof.
  intros H. destruct (monthly_history_inv _ H) as [_ [Hlen Hk]].
  destruct (monthly_history_bounds _ H) as [HM _]. cbv zeta in HM.
  rewrite HM. rewrite Hk at 2. apply in_map_iff.
  exists (length (rows df) - 1)%nat. split; [lia|]. apply in_seq. lia.
Qed.

Lemma predict_monthly_rows (self : SimpleCorrelation12) (p : Period)
    (df : DataFrame) (num_meses : option Z) :
  _period_ self = Some p ->
  df_base self = Some df ->
  monthly_history df = true ->
  In p (keys (index df)) ->
  exists out,
    predict self num_meses = Ok out
    /\ index out
       = period_range (last (keys (index df)) 0 + 1) (length (rows out))
    /\ columns out = columns df
    /\ map snd (rows out)
       = map snd
           (py_slice_to
              (skipn (Z.to_nat (p + 1 - hd 0 (keys (index df)))) (rows df))
              match num_meses with
              | Some n => if n =? 0 then 13 - month (p + 1) else n
              | None => 13 - month (p + 1)
              end).
Proof.
  intros Hp Hb H Hin.
  set (h := match num_meses with
            | Some n => if n =? 0 then 13 - month (p + 1) else n
            | None => 13 - month (p + 1)
            end).
  destruct (monthly_history_inv _ H) as [_ [Hlen Hk]].
  destruct (monthly_history_bounds _ H) as [HM Hbnd]. cbv zeta in HM, Hbnd.
  specialize (Hbnd p Hin).
  set (M := last (keys (index df)) 0) in *.
  set (k0 := hd 0 (keys (index df))) in *.
  assert (contiguous (keys (index df)) = true) as Hc.
  { unfold monthly_history in H. apply andb_true_iff in H.
    destruct H as [H _]. apply andb_true_iff in H. apply H. }
  assert (py_index (keys (index df)) (-1) = Ok M) as Hlast.
  { apply py_index_last. rewrite Hk.
    destruct (length (rows df)); [lia | discriminate]. }
  assert (loc_from (p + 1) df
          = Ok (with_rows df (skipn (Z.to_nat (p + 1 - k0)) (rows df))))
    as Hloc.
  { unfold loc_from. rewrite (contiguous_monotonic _ Hc).
    rewrite Hk at 1. rewrite count_below. fold k0.
    do 3 f_equal. lia. }
  set (sel := iloc_to h
                (with_rows df (skipn (Z.to_nat (p + 1 - k0)) (rows df)))).
  destruct (set_index_range_ok (M + 1) sel) as [out Hout].
  exists out. split.
  - unfold predict. rewrite Hp, Hb. cbn [bind]. rewrite Hlast. cbn [bind].
    rewrite Hloc. cbn [bind]. exact Hout.
  - destruct (set_index_range _ _ Hout) as [Hi [Hcol Hrows]].
    split; [exact Hi|]. split; [exact Hcol|]. exact Hrows.
Qed.

(** X10.  When the selected period is the last month of the stored
    monthly history, nothing follows it: [predict] returns an empty
    table, whatever [num_meses] is. *)
Theorem predict_after_last_month (self : SimpleCorrelation12)
    (df : DataFrame) (num_meses : option Z) :
  _period_ self = Some (last (keys (index df)) 0) ->
  df_base self = Some df ->
  monthly_history df = true ->
  exists out,
    predict self num_meses = Ok out
    /\ rows out = []
    /\ columns out = columns df.
Proof.
  intros Hp Hb H.
  destruct (predict_monthly_rows self num_meses Hp Hb H (monthly_last_in _ H))
    as [out [Hout [_ [Hc Hrows]]]].
  exists out. split; [exact Hout|]. split; [|exact Hc].
  destruct (monthly_history_bounds _ H) as [HM _]. cbv zeta in HM.
  rewrite skipn_all2 in Hrows by lia.
  unfold py_slice_to in Hrows.
  destruct (_ <? 0) in Hrows; rewrite firstn_nil in Hrows;
    (destruct (rows out); [reflexivity | discriminate Hrows]).
Qed.

(** X11.  A negative [num_meses] is not refused: it is the bound of a
    Python slice, so the months that follow the selected period are
    returned but for the last [- num_meses] of them. *)
Theorem predict_negative_horizon (self : SimpleCorrelation12) (p : Period)
    (df : DataFrame) (num_meses : Z) :
  _period_ self = Some p ->
  df_base self = Some df ->
  monthly_history df = true ->
  In p (keys (index df)) ->
  num_meses < 0 ->
  exists out,
    predict self (Some num_meses) = Ok out
    /\ Z.of_nat (length (rows out))
       = Z.max 0 (last (keys (index df)) 0 - p + num_meses).
Proof.
  intros Hp Hb H Hin Hn.
  destruct (predict_monthly_rows self (Some num_meses) Hp Hb H Hin)
    as [out [Hout [_ [_ Hrows]]]].
  exists out. split; [exact Hout|].
  destruct (monthly_history_bounds _ H) as [HM Hbnd]. cbv zeta in HM, Hbnd.
  specialize (Hbnd p Hin).
  replace (num_meses =? 0) with false in Hrows
    by (symmetry; apply Z.eqb_neq; lia).
  rewrite <- (length_map snd), Hrows, length_map.
  unfold py_slice_to.
  replace (num_meses <? 0) with true by (symmetry; apply Z.ltb_lt; lia).
  rewrite length_firstn, !length_skipn. lia.
Qed.

(** X9.  After [fit] has returned on a monthly history ending at M,
    the selected period lies a whole number k of years before M.
    When k is not 0, at least twelve months follow it: a request for
    up to twelve months is served in full, and [predict()] returns
    the 13 - month (M + 1) months that run from M + 1 to the next
    December. *)
Theorem predict_whole_years (df_base0 : DataFrame)
    (self self' : SimpleCorrelation12) :
  monthly_history df_base0 = true ->
  fit df_base0 self = (self', Ok tt) ->
  exists p k,
    _period_ self' = Some p
    /\ 0 <= k
    /\ p = last (keys (index df_base0)) 0 - 12 * k
    /\ (0 < k ->
        (forall n, 0 < n <= 12 ->
           exists out,
             predict self' (Some n) = Ok out
             /\ Z.of_nat (length (rows out)) = n)
        /\ exists out,
             predict self' None = Ok out
             /\ Z.of_nat (length (rows out))
                = 13 - month (last (keys (index df_base0)) 0 + 1)
             /\ month (last (keys (index out)) 0) = 12).
Proof.
  intros H Hfit.
  destruct (fit_monthly_period _ _ H Hfit) as [p [Hp [Hb [Hin Hm]]]].
  destruct (monthly_history_bounds _ H) as [_ Hbnd]. cbv zeta in Hbnd.
  specialize (Hbnd p Hin).
  set (M := last (keys (index df_base0)) 0) in *.
  assert (M - p = 12 * ((M - p) / 12)) as Hk.
  { unfold month in Hm.
    pose proof (Z.div_mod p 12). pose proof (Z.mod_pos_bound p 12).
    pose proof (Z.div_mod M 12). pose proof (Z.mod_pos_bound M 12).
    pose proof (Z.div_mod (M - p) 12).
    pose proof (Z.mod_pos_bound (M - p) 12). lia. }
  exists p, ((M - p) / 12). split; [exact Hp|].
  split; [lia|]. split; [lia|].
  intros Hpos.
  assert (month (p + 1) = month (M + 1)) as Hm1.
  { unfold month.
    pose proof (Z.div_mod (p + 1) 12).
    pose proof (Z.mod_pos_bound (p + 1) 12).
    pose proof (Z.div_mod (M + 1) 12).
    pose proof (Z.mod_pos_bound (M + 1) 12). lia. }
  pose proof (month_bounds (M + 1)) as HmM.
  split.
  - intros n Hn.
    pose proof (predict_monthly self' (Some n) Hp Hb H Hin) as P.
    cbv beta iota zeta in P.
    replace (n =? 0) with false in P by (symmetry; apply Z.eqb_neq; lia).
    destruct P as [out [Hout [_ [_ [Hlen _]]]]]; [lia|].
    exists out. split; [exact Hout|]. fold M in Hlen. lia.
  - pose proof (predict_monthly self' None Hp Hb H Hin) as P.
    cbv beta iota zeta in P. rewrite Hm1 in P.
    destruct P as [out [Hout [Hi [_ [Hlen _]]]]]; [lia|].
    fold M in Hi, Hlen.
    assert (Z.of_nat (length (rows out)) = 13 - month (M + 1)) as Hl by lia.
    exists out. split; [exact Hout|]. split; [exact Hl|].
    rewrite Hi. cbn [keys period_range].
    destruct (length (rows out)) as [|n] eqn:En; [lia|].
    rewrite last_range. unfold month in *.
    pose proof (Z.div_mod (M + 1) 12).
    pose proof (Z.mod_pos_bound (M + 1) 12).
    pose proof (Z.div_mod (M + 1 + Z.of_nat n) 12).
    pose proof (Z.mod_pos_bound (M + 1 + Z.of_nat n) 12). lia.
Qed.

(** X12.  The table [predict] returns is the history read again at
    the selected period: its row number i is dated M + 1 + i, M the
    last month of the history, and holds the values the history has
    at month p + 1 + i, p the selected period. *)
Theorem predict_rows_from_history (self : SimpleCorrelation12) (p : Period)
    (df : DataFrame) (num_meses : Z) (i : nat) :
  _period_ self = Some p ->
  df_base self = Some df ->
  monthly_history df = true ->
  In p (keys (index df)) ->
  0 < num_meses ->
  Z.of_nat i < Z.min num_meses (last (keys (index df)) 0 - p) ->
  exists out v,
    predict self (Some num_meses) = Ok out
    /\ nth_error (rows out) i
       = Some (last (keys (index df)) 0 + 1 + Z.of_nat i, v)
    /\ loc_label (p + 1 + Z.of_nat i) df = Ok v.
Proof.
  intros Hp Hb H Hin Hn Hi.
  destruct (predict_monthly_rows self (Some num_meses) Hp Hb H Hin)
    as [out [Hout [Hidx [_ Hrows]]]].
  destruct (monthly_history_bounds _ H) as [HM Hbnd]. cbv zeta in HM, Hbnd.
  specialize (Hbnd p Hin).
  set (M := last (keys (index df)) 0) in *.
  set (k0 := hd 0 (keys (index df))) in *.
  replace (num_meses =? 0) with false in Hrows
    by (symmetry; apply Z.eqb_neq; lia).
  unfold py_slice_to in Hrows.
  replace (num_meses <? 0) with false in Hrows
    by (symmetry; apply Z.ltb_ge; lia).
  set (c := Z.to_nat (p + 1 - k0)) in *.
  assert (nth_error (map snd (rows out)) i
          = option_map snd (nth_error (rows df) (c + i))) as Hv.
  { rewrite Hrows, nth_error_map, nth_error_firstn, nth_error_skipn.
    replace (i <? Z.to_nat num_meses)%nat with true
      by (symmetry; apply Nat.ltb_lt; lia).
    reflexivity. }
  destruct (nth_error (rows df) (c + i)) as [r1|] eqn:E1.
  2:{ apply nth_error_None in E1. unfold c in E1. lia. }
  destruct (monthly_nth_key _ _ H E1) as [Hk1 _]. fold k0 in Hk1.
  pose proof (loc_label_monthly _ _ H E1) as Hloc.
  assert (nth_error (keys (index out)) i = Some (M + 1 + Z.of_nat i)) as Hk.
  { rewrite Hidx. cbn [keys period_range].
    rewrite nth_error_map, nth_error_seq.
    assert (i < length (rows out))%nat as Hlt.
    { rewrite <- (length_map snd). apply nth_error_Some.
      rewrite Hv. discriminate. }
    replace (i <? length (rows out))%nat with true
      by (symmetry; apply Nat.ltb_lt; exact Hlt).
    reflexivity. }
  cbn [keys index] in Hk. rewrite nth_error_map in Hk, Hv.
  destruct (nth_error (rows out) i) as [[k v]|] eqn:Er; [|discriminate].
  cbn [option_map fst snd] in Hk, Hv.
  inversion Hk; subst k. inversion Hv; subst v.
  exists out, (snd r1). split; [exact Hout|]. split; [exact Er|].
  replace (p + 1 + Z.of_nat i) with (fst r1); [exact Hloc|].
  rewrite Hk1. unfold c. lia.
Qed.

(** ** When the two entry points return *)

Lemma months_1_12 (m : Z) : In m (range 1 13) <-> 1 <= m <= 12.
Proof.
  rewrite range_1_13. cbn [In]. lia.
Qed.

(** X13.  On a monthly index [calc_corr_last12] returns a table
    exactly when each of the twelve calendar months occurs among the
    last twelve rows; when one is missing it raises [IndexError],
    whether or not the index has gaps elsewhere. *)
Theorem calc_corr_last12_needs_all_months (df_hist : DataFrame) :
  freq (index df_hist) = MonthEnd ->
  ((exists t, calc_corr_last12 df_hist = Ok t)
   <-> forall m, 1 <= m <= 12 ->
         In m (map month (keys (index (iloc_last 12 df_hist)))))
  /\ ((exists m, 1 <= m <= 12
                 /\ ~ In m (map month (keys (index (iloc_last 12 df_hist)))))
      -> calc_corr_last12 df_hist = Raise IndexError).
Proof.
  intros Hf.
  assert ((exists t, calc_corr_last12 df_hist = Ok t) ->
          forall m, 1 <= m <= 12 ->
            In m (map month (keys (index (iloc_last 12 df_hist)))))
    as Hnec.
  { intros [t E] m Hm. unfold calc_corr_last12, copy in E.
    rewrite Hf in E. cbn [is_MonthEnd negb] in E.
    destruct (for_each _ _ df_hist) as [other|e] eqn:L; [|discriminate].
    apply (for_each_spread_months _ _ _ L). apply months_1_12, Hm. }
  split; [split; [exact Hnec|]|].
  - intros Hall.
    assert (forall m, In m (range 1 13) ->
                      has_month (iloc_last 12 df_hist) m) as Hhas.
    { intros m Hm. apply months_1_12 in Hm.
      specialize (Hall m Hm). cbn [keys index] in Hall.
      rewrite map_map in Hall. apply in_map_iff in Hall.
      destruct Hall as [r [Hr Hin]]. exists r. split; assumption. }
    destruct (for_each_spread_ok _ Hhas df_hist) as [other [Ho _]].
    unfold calc_corr_last12, copy. rewrite Hf. cbn [is_MonthEnd negb].
    rewrite Ho. cbn [bind].
    assert (map month (keys (index (iloc_last 12 df_hist))) <> []) as Hne.
    { intros E0. specialize (Hall 1 ltac:(lia)). rewrite E0 in Hall.
      destruct Hall. }
    rewrite (py_index_last 0 Hne). cbn [bind]. eauto.
  - intros [m [Hm Hmiss]].
    destruct (calc_corr_last12 df_hist) as [t|e] eqn:E.
    + exfalso. apply Hmiss. apply Hnec; [eauto | exact Hm].
    + destruct (calc_corr_last12_raise _ E) as [[_ Hn]|[-> _]];
        [contradiction | reflexivity].
Qed.

Lemma position_In (c : Z) (l : list Z) :
  In c l -> exists j, position c l = Some j.
Proof.
  induction l as [|x l IH]; intros H; [destruct H|].
  cbn [position]. destruct (x =? c) eqn:E; [eauto|].
  destruct H as [H|H]; [apply Z.eqb_neq in E; contradiction|].
  destruct (IH H) as [j ->]. cbn [option_map]. eauto.
Qed.

(** X14.  On a monthly history of K rows in which [coluna] labels
    exactly one column, [fit] returns exactly when [posicao] lies
    between - n and n - 1, n = (K - 1) / 12 + 1 the number of rows of
    the correlation table.  With rank 1, the default, this asks for
    thirteen months of history: on twelve months [fit] raises. *)
Theorem fit_returns_iff (df_base0 : DataFrame) (self : SimpleCorrelation12) :
  monthly_history df_base0 = true ->
  count_occ Z.eq_dec (columns df_base0) (coluna self) = 1%nat ->
  ((exists self', fit df_base0 self = (self', Ok tt))
   <-> - ((Z.of_nat (length (rows df_base0)) - 1) / 12 + 1)
       <= posicao self
       < (Z.of_nat (length (rows df_base0)) - 1) / 12 + 1)
  /\ (posicao self = 1 ->
      ((exists self', fit df_base0 self = (self', Ok tt))
       <-> (13 <= length (rows df_base0))%nat)).
Proof.
  intros H Hcol.
  destruct (table_row_count _ H) as [t [E [Hc Hn]]].
  destruct (monthly_history_inv _ H) as [_ [Hlen _]].
  assert (exists s, getitem_col (coluna self) t = Ok s) as [s Hs].
  { unfold getitem_col. rewrite Hc.
    assert (In (coluna self) (columns df_base0)) as Hin
      by (apply (count_occ_In Z.eq_dec); lia).
    destruct (position_In _ _ Hin) as [j ->].
    rewrite Hcol. cbn [Nat.eqb]. eauto. }
  assert ((exists self', fit df_base0 self = (self', Ok tt))
          <-> - Z.of_nat (length (rows t)) <= posicao self
              < Z.of_nat (length (rows t))) as Hiff.
  { split.
    - intros [self' Hfit].
      destruct (Z_le_dec (- Z.of_nat (length (rows t))) (posicao self))
        as [H1|H1];
        [destruct (Z_lt_dec (posicao self) (Z.of_nat (length (rows t))))
           as [H2|H2]; [lia|]|];
        (assert (fit df_base0 self
                 = (set_df_correlacao t (set_df_base (copy df_base0) self),
                    Raise IndexError)) as Hout
           by (eapply fit_rank_outside; [eassumption | eassumption | lia]);
         rewrite Hout in Hfit; discriminate Hfit).
    - intros Hin. eapply fit_rank_inside; eassumption. }
  rewrite Hn in Hiff. split; [exact Hiff|].
  intros H1. rewrite Hiff, H1.
  pose proof (Z.div_mod (Z.of_nat (length (rows df_base0)) - 1) 12).
  pose proof (Z.mod_pos_bound (Z.of_nat (length (rows df_base0)) - 1) 12).
  lia.
Qed.

End Further.

(** * The model at work on rational cells *)

Section Worked.
Import QCells.

Lemma qleb_laws : @OrderLaws _ backend.
Proof.
  split.
  - intros [x|] [y|] Hx Hy; try discriminate. simpl.
    destruct (Qlt_le_dec x y) as [H|H].
    + left. apply Qle_bool_iff, Qlt_le_weak, H.
    + right. apply Qle_bool_iff, H.
  - intros [x|] [y|] [z|]; simpl; try discriminate.
    rewrite !Qle_bool_iff. apply Qle_trans.
Qed.

Example history_is_monthly : monthly_history history = true.
Proof. reflexivity. Qed.

Example history_table_keys :
  keys (index history_corr) = [363; 375; 387; 399].
Proof. vm_compute. reflexivity. Qed.

Example model_fitted_period :
  _period_ model_fitted = Some 375
  /\ mes_final_periodo_ model_fitted = Some "2001-04"%string.
Proof. vm_compute. split; reflexivity. Qed.

(** In exact arithmetic the trailing window correlates with itself at
    1 in both columns. *)
Example history_final_row :
  last (rows history_corr) (0, []) = (399, [Some (1 # 1)%Q; Some (1 # 1)%Q]).
Proof. vm_compute. reflexivity. Qed.

(** The rational kernel obeys the law of [PearsonLaws]: a window
    whose variance is positive correlates with itself at 1. *)
Lemma qcorr_self (w : list (option Q)) :
  q_nonzero_variance w -> signed_r2 w w = Some (1 # 1)%Q.
Proof.
  intros [v [Hv Hpos]]. unfold qvariance in Hv. unfold signed_r2.
  destruct (all_defined w) as [xs|]; [|discriminate].
  injection Hv as Hv. cbv zeta. rewrite Hv.
  assert (~ (v * v == 0)%Q) as Hnz.
  { intros E. apply Qmult_integral in E.
    destruct E as [E|E]; rewrite E in Hpos; discriminate. }
  destruct (Qeq_bool (v * v) 0) eqn:Eb.
  { apply Qeq_bool_iff in Eb. contradiction. }
  replace (Qle_bool 0 v) with true
    by (symmetry; apply Qle_bool_iff, Qlt_le_weak, Hpos).
  f_equal. change (1 # 1)%Q with (Qred 1). apply Qred_complete.
  field. intros E. rewrite E in Hpos. discriminate.
Qed.

Lemma history_trailing_varies (j : nat) :
  (j < 2)%nat ->
  q_nonzero_variance (column_values j (iloc_last 12 history)).
Proof.
  intros Hj.
  assert (j = 0 \/ j = 1)%nat as [-> | ->] by lia.
  - exists (match qvariance (column_values 0 (iloc_last 12 history)) with
            | Some v => v
            | None => 0%Q
            end).
    split; vm_compute; reflexivity.
  - exists (match qvariance (column_values 1 (iloc_last 12 history)) with
            | Some v => v
            | None => 0%Q
            end).
    split; vm_compute; reflexivity.
Qed.


(** A gap in a monthly index is not noticed: the table is built. *)
Example gapped_accepted :
  contiguous (keys (index gapped)) = false
  /\ exists t, calc_corr_last12 gapped = Ok t
              /\ keys (index t) = [360; 384].
Proof.
  split; [reflexivity|].
  exists (match calc_corr_last12 gapped with Ok t => t | Raise _ => gapped end).
  split; [reflexivity | vm_compute; reflexivity].
Qed.

Lemma history_fit : fit history model = (model_fitted, Ok tt).
Proof. vm_compute. reflexivity. Qed.

Lemma history_in_375 : In 375 (keys (index history)).
Proof. vm_compute. repeat (first [left; reflexivity | right]). Qed.

(** C2 at work: the daily table is refused, the short monthly one
    fails later, the monthly history goes through. *)
Lemma format_error_iff_not_monthly_witness :
  (freq (index daily) <> MonthEnd
   /\ calc_corr_last12 daily = Raise FormatError)
  /\ (freq (index short) = MonthEnd
      /\ (length (rows short) < 12)%nat
      /\ calc_corr_last12 short = Raise IndexError)
  /\ (monthly_history history = true
      /\ exists t, calc_corr_last12 history = Ok t).
Proof.
  split; [|split].
  - assert (freq (index daily) <> MonthEnd) as H by discriminate.
    split; [exact H|].
    exact (proj2 (proj1 (@format_error_iff_not_monthly _ backend daily)) H).
  - assert (freq (index short) = MonthEnd) as H1 by reflexivity.
    assert (length (rows short) < 12)%nat as H2 by (vm_compute; lia).
    split; [exact H1|]. split; [exact H2|].
    exact (proj1 (proj2 (@format_error_iff_not_monthly _ backend short)) H1 H2).
  - split; [reflexivity|].
    exact (proj2 (proj2 (@format_error_iff_not_monthly _ backend history))
                 history_is_monthly).
Defined.

(** C2 as stated fails on the eleven-month table: it is monthly and
    without gaps, it has fewer than twelve rows, and what is raised is
    not the format error. *)
Lemma short_table_no_format_error :
  ~ (calc_corr_last12 short = Raise FormatError
     <-> (is_MonthEnd (freq (index short))
          && contiguous (keys (index short)) = false
          \/ (length (rows short) < 12)%nat)).
Proof.
  intros [_ H].
  assert (calc_corr_last12 short = Raise FormatError) as E.
  { apply H. right. vm_compute. lia. }
  vm_compute in E. discriminate E.
Qed.

Lemma correlation_table_rows_witness :
  monthly_history history = true
  /\ exists t,
       calc_corr_last12 history = Ok t
       /\ keys (index t)
          = filter (fun p => month p =?
                             month (last (keys (index (iloc_last 12 history)))
                                         0))
                   (keys (index history))
       /\ columns t = columns history
       /\ name (index t) = Some "mes_final"%string.
Proof.
  split; [reflexivity|].
  exact (@correlation_table_rows _ backend history history_is_monthly).
Defined.

Lemma fit_refused_history_witness :
  freq (index daily) <> MonthEnd
  /\ fit daily model = (set_df_base (copy daily) model, Raise FormatError).
Proof.
  assert (freq (index daily) <> MonthEnd) as H by discriminate.
  split; [exact H|].
  exact (proj1 (proj2 (@fit_refused_history _ backend daily model H))).
Defined.

(** C6 as stated fails on the daily table: the check refuses it, and
    the object is not what it was before the call. *)
Lemma refused_fit_changes_model :
  calc_corr_last12 daily = Raise FormatError
  /\ snd (fit daily model) = Raise FormatError
  /\ fst (fit daily model) <> model
  /\ df_base (fst (fit daily model)) = Some daily
  /\ df_base model = None.
Proof.
  split; [reflexivity|]. split; [reflexivity|].
  split; [|split; reflexivity].
  intros H. apply (f_equal (@df_base (option Q))) in H. discriminate H.
Qed.

Lemma not_fitted_iff_no_fit_returned_witness :
  session model false
  /\ (predict model None = Raise NotFittedError <-> false = false).
Proof.
  assert (session model false) as H by exact (session_new 6 None).
  split; [exact H|].
  exact (@not_fitted_iff_no_fit_returned _ backend model false None H).
Defined.

(** C4 as stated fails on the model whose only [fit] was refused:
    [fit] has been called on it, it is no freshly constructed object,
    and [predict] raises the not-fitted exception. *)
Lemma refused_model_not_fitted :
  fit daily model = (model_refused, Raise FormatError)
  /\ session model_refused false
  /\ (forall col pos, model_refused <> __init__ col pos)
  /\ predict model_refused None = Raise NotFittedError.
Proof.
  assert (fit daily model = (model_refused, Raise FormatError)) as Hfit
    by reflexivity.
  split; [exact Hfit|]. split; [|split].
  - eapply session_fit_raise; [exact (session_new 6 None) | exact Hfit].
  - intros col pos H. apply (f_equal (@df_base (option Q))) in H.
    discriminate H.
  - reflexivity.
Qed.



Lemma predict_reindexes_witness :
  monthly_history history = true
  /\ fit history model = (model_fitted, Ok tt)
  /\ 0 < 3
  /\ exists out p,
       predict model_fitted (Some 3) = Ok out
       /\ _period_ model_fitted = Some p
       /\ index out
          = period_range (last (keys (index history)) 0 + 1)
                         (length (rows out))
       /\ columns out = columns history
       /\ Z.of_nat (length (rows out)) <= 3
       /\ Z.of_nat (length (rows out))
          = Z.min 3 (last (keys (index history)) 0 - p)
       /\ map snd (rows out)
          = map snd (firstn (Z.to_nat 3)
                       (skipn (Z.to_nat (p + 1 - hd 0 (keys (index history))))
                          (rows history)))
       /\ freq (index out) = MonthEnd
       /\ (forall i, (i < length (rows out))%nat ->
             nth_error (map fst (rows out)) i
             = Some (last (keys (index history)) 0 + 1 + Z.of_nat i))
       /\ contiguous (map fst (rows out)) = true.
Proof.
  assert (0 < 3) as H3 by lia.
  split; [exact history_is_monthly|]. split; [exact history_fit|].
  split; [exact H3|].
  exact (proj2 (@predict_reindexes _ backend) history model model_fitted 3
           history_is_monthly history_fit H3).
Defined.

Example predicted_three_months :
  option_map (fun out => keys (index out))
    (match predict model_fitted (Some 3) with
     | Ok out => Some out
     | Raise _ => None
     end)
  = Some [400; 401; 402].
Proof. vm_compute. reflexivity. Qed.

Lemma predict_default_horizon_witness :
  _period_ model_fitted = Some 375
  /\ 13 - month (375 + 1) = 8
  /\ predict model_fitted None = predict model_fitted (Some 8)
  /\ exists out,
       predict model_fitted None = Ok out
       /\ Z.of_nat (length (rows out)) = 8.
Proof.
  assert (_period_ model_fitted = Some 375) as Hp
    by (vm_compute; reflexivity).
  pose proof (@predict_default_horizon _ model_fitted 375 Hp)
    as [_ [Heq [_ Hrows]]].
  split; [exact Hp|]. split; [reflexivity|]. split; [exact Heq|].
  destruct (Hrows history) as [out [Hout Hlen]].
  - vm_compute. reflexivity.
  - exact history_is_monthly.
  - exact history_in_375.
  - exists out. split; [exact Hout|]. rewrite Hlen. reflexivity.
Defined.

Lemma predict_zero_is_default_witness :
  predict model_fitted (Some 0) = predict model_fitted None
  /\ predict model_fitted (Some 0) = predict model_fitted (Some 8)
  /\ (exists out,
       predict model_fitted (Some 0) = Ok out
       /\ rows out <> []
       /\ Z.of_nat (length (rows out)) = 8)
  /\ (exists out,
       predict model_rank0 (Some 0) = Ok out
       /\ rows out = []
       /\ columns out = columns history).
Proof.
  assert (_period_ model_fitted = Some 375) as Hp
    by (vm_compute; reflexivity).
  pose proof (@predict_zero_is_default _ model_fitted)
    as [H0 [Heq [Hrows _]]].
  split; [exact H0|]. split; [exact (Heq 375 Hp)|]. split.
  - destruct (Hrows 375 history Hp) as [out [Hout [Hne Hlen]]].
    + vm_compute. reflexivity.
    + exact history_is_monthly.
    + exact history_in_375.
    + vm_compute. reflexivity.
    + exists out. split; [exact Hout|]. split; [exact Hne|].
      rewrite Hlen. reflexivity.
  - pose proof (@predict_zero_is_default _ model_rank0)
      as [_ [_ [_ Hempty]]].
    apply (Hempty history).
    + vm_compute. reflexivity.
    + vm_compute. reflexivity.
    + exact history_is_monthly.
Defined.

(** C9 as the claim has it does not hold: the model fitted on
    [history] at rank 0 selects the last month of the history, and
    its [predict(0)] returns the table without rows. *)
Lemma predict_zero_after_last_month_is_empty :
  fit history (__init__ 6 (Some 0)) = (model_rank0, Ok tt)
  /\ _period_ model_rank0 = Some 399
  /\ last (keys (index history)) 0 = 399
  /\ predict model_rank0 (Some 0)
     = Ok {| index_freq := MonthEnd;
             index_name := None;
             columns := [6; 74];
             rows := [] |}
  /\ ~ (exists out,
          predict model_rank0 (Some 0) = Ok out /\ rows out <> []).
Proof.
  assert (predict model_rank0 (Some 0)
          = Ok {| index_freq := MonthEnd;
                  index_name := None;
                  columns := [6; 74];
                  rows := [] |}) as Hout
    by (vm_compute; reflexivity).
  split; [vm_compute; reflexivity|].
  split; [vm_compute; reflexivity|].
  split; [vm_compute; reflexivity|].
  split; [exact Hout|].
  intros [out [Ho Hne]]. rewrite Hout in Ho.
  injection Ho as <-. apply Hne. reflexivity.
Qed.

(** ** The further properties at work *)

Lemma history_corr_eq : calc_corr_last12 history = Ok history_corr.
Proof. vm_compute. reflexivity. Qed.

Lemma history_corr6_eq :
  getitem_col (coluna model) history_corr = Ok history_corr6.
Proof. vm_compute. reflexivity. Qed.

Lemma model_fitted_base : df_base model_fitted = Some history.
Proof. vm_compute. reflexivity. Qed.

Lemma model_fitted_375 : _period_ model_fitted = Some 375.
Proof. vm_compute. reflexivity. Qed.

Lemma final_row_self_correlation_witness :
  monthly_history history = true
  /\ exists t front,
       calc_corr_last12 history = Ok t
       /\ rows t
          = front
            ++ [(last (keys (index history)) 0,
                 map (fun j =>
                        corr (column_values j (iloc_last 12 history))
                             (column_values j (iloc_last 12 history)))
                     (seq 0 (length (columns history))))].
Proof.
  split; [exact history_is_monthly|].
  exact (@final_row_self_correlation _ backend history history_is_monthly).
Defined.

Lemma correlation_table_shape_witness :
  monthly_history history = true
  /\ exists t,
       calc_corr_last12 history = Ok t
       /\ Z.of_nat (length (rows t)) = 4.
Proof.
  split; [exact history_is_monthly|].
  destruct (@correlation_table_shape _ backend history history_is_monthly)
    as [t [E [Hn _]]].
  exists t. split; [exact E|]. rewrite Hn. reflexivity.
Defined.

Lemma correlation_table_cells_witness :
  monthly_history history = true
  /\ exists t,
       calc_corr_last12 history = Ok t
       /\ forall r, In r (rows t) ->
            exists i,
              (i < length (rows history))%nat
              /\ fst r = hd 0 (keys (index history)) + Z.of_nat i
              /\ snd r
                 = if (i <? 11)%nat
                   then repeat nan (length (columns history))
                   else map (fun j =>
                               corr (window 12 i (column_values j history))
                                    (column_values j (iloc_last 12 history)))
                            (seq 0 (length (columns history))).
Proof.
  split; [exact history_is_monthly|].
  exact (@correlation_table_cells _ backend history history_is_monthly).
Defined.

Lemma fit_rank_in_range_witness :
  calc_corr_last12 history = Ok history_corr
  /\ getitem_col (coluna model) history_corr = Ok history_corr6
  /\ ((exists self', fit history model = (self', Ok tt))
      <-> - Z.of_nat (length (rows history_corr)) <= posicao model
          < Z.of_nat (length (rows history_corr))).
Proof.
  split; [exact history_corr_eq|]. split; [exact history_corr6_eq|].
  exact (proj1 (@fit_rank_in_range _ backend history history_corr model
                  history_corr6 history_corr_eq history_corr6_eq)).
Defined.

Lemma fit_unknown_column_witness :
  calc_corr_last12 history = Ok history_corr
  /\ ~ In (coluna model_col7) (columns history_corr)
  /\ snd (fit history model_col7) = Raise KeyError.
Proof.
  assert (~ In (coluna model_col7) (columns history_corr)) as Hn.
  { vm_compute. intros [H|[H|H]]; [discriminate H | discriminate H | exact H]. }
  split; [exact history_corr_eq|]. split; [exact Hn|].
  rewrite (proj1 (@fit_unknown_column _ backend history history_corr
                    model_col7 history_corr_eq Hn)).
  reflexivity.
Defined.

Lemma fit_replaces_state_witness :
  fit history model = (model_fitted, Ok tt)
  /\ coluna model_fitted = coluna model
  /\ posicao model_fitted = posicao model
  /\ fit history model_fitted = (model_fitted, Ok tt).
Proof.
  assert (coluna model_fitted = coluna model) as H1
    by (vm_compute; reflexivity).
  assert (posicao model_fitted = posicao model) as H2
    by (vm_compute; reflexivity).
  split; [exact history_fit|]. split; [exact H1|]. split; [exact H2|].
  exact (@fit_replaces_state _ backend history model model_fitted
           model_fitted history_fit H1 H2).
Defined.

Lemma stale_fit : fit daily model_fitted = (model_stale, Raise FormatError).
Proof. vm_compute. reflexivity. Qed.

Lemma refit_failure_keeps_period_witness :
  fit history model = (model_fitted, Ok tt)
  /\ fit daily model_fitted = (model_stale, Raise FormatError)
  /\ df_base model_stale = Some daily
  /\ _period_ model_stale = _period_ model_fitted
  /\ forall num_meses, predict model_stale num_meses <> Raise NotFittedError.
Proof.
  split; [exact history_fit|]. split; [exact stale_fit|].
  destruct (@refit_failure_keeps_period _ backend history daily model
              model_fitted model_stale FormatError history_fit stale_fit)
    as [Hb [Hp [_ [_ [_ [_ Hn]]]]]].
  split; [exact Hb|]. split; [exact Hp|]. exact Hn.
Defined.

(** What the stale model forecasts: eight rows of the daily table. *)
Example stale_model_predicts :
  option_map (fun out => keys (index out))
    (match predict model_stale None with
     | Ok out => Some out
     | Raise _ => None
     end)
  = Some [10997; 10998; 10999; 11000; 11001; 11002; 11003; 11004].
Proof. vm_compute. reflexivity. Qed.

Lemma fit_attributes_agree_witness :
  monthly_history history = true
  /\ fit history model = (model_fitted, Ok tt)
  /\ exists p j row,
       _period_ model_fitted = Some p
       /\ nth_error (columns history) j = Some (coluna model)
       /\ correlacao_outros_ model_fitted = Some row
       /\ length row = length (columns history)
       /\ correlacao_ model_fitted = Some (nth j row nan)
       /\ mes_final_periodo_ model_fitted = Some (strftime_Ym p)
       /\ df_base model_fitted = Some history
       /\ exists t s,
            calc_corr_last12 history = Ok t
            /\ df_correlacao model_fitted = Some t
            /\ loc_label p t = Ok row
            /\ In (p, row) (rows t)
            /\ getitem_col (coluna model) t = Ok s
            /\ py_index (sort_values false s) (posicao model)
               = Ok (p, nth j row nan).
Proof.
  split; [exact history_is_monthly|]. split; [exact history_fit|].
  exact (@fit_attributes_agree _ backend history model model_fitted
           history_is_monthly history_fit).
Defined.

Lemma predict_whole_years_witness :
  monthly_history history = true
  /\ fit history model = (model_fitted, Ok tt)
  /\ exists p k,
       _period_ model_fitted = Some p
       /\ 0 <= k
       /\ p = last (keys (index history)) 0 - 12 * k.
Proof.
  split; [exact history_is_monthly|]. split; [exact history_fit|].
  destruct (@predict_whole_years _ backend history model model_fitted
              history_is_monthly history_fit) as [p [k [Hp [Hk [E _]]]]].
  exists p, k. split; [exact Hp|]. split; [exact Hk | exact E].
Defined.

Lemma predict_after_last_month_witness :
  _period_ model_rank0 = Some (last (keys (index history)) 0)
  /\ df_base model_rank0 = Some history
  /\ monthly_history history = true
  /\ exists out,
       predict model_rank0 (Some 3) = Ok out
       /\ rows out = []
       /\ columns out = columns history.
Proof.
  assert (_period_ model_rank0 = Some (last (keys (index history)) 0)) as Hp
    by (vm_compute; reflexivity).
  assert (df_base model_rank0 = Some history) as Hb
    by (vm_compute; reflexivity).
  split; [exact Hp|]. split; [exact Hb|]. split; [exact history_is_monthly|].
  exact (@predict_after_last_month _ model_rank0 history (Some 3)
           Hp Hb history_is_monthly).
Defined.

Lemma predict_negative_horizon_witness :
  _period_ model_fitted = Some 375
  /\ df_base model_fitted = Some history
  /\ monthly_history history = true
  /\ In 375 (keys (index history))
  /\ -3 < 0
  /\ exists out,
       predict model_fitted (Some (-3)) = Ok out
       /\ Z.of_nat (length (rows out))
          = Z.max 0 (last (keys (index history)) 0 - 375 + -3).
Proof.
  assert (-3 < 0) as Hn by lia.
  split; [exact model_fitted_375|]. split; [exact model_fitted_base|].
  split; [exact history_is_monthly|]. split; [exact history_in_375|].
  split; [exact Hn|].
  exact (@predict_negative_horizon _ model_fitted 375 history (-3)
           model_fitted_375 model_fitted_base history_is_monthly
           history_in_375 Hn).
Defined.

Lemma predict_rows_from_history_witness :
  _period_ model_fitted = Some 375
  /\ df_base model_fitted = Some history
  /\ monthly_history history = true
  /\ In 375 (keys (index history))
  /\ 0 < 3
  /\ Z.of_nat 2 < Z.min 3 (last (keys (index history)) 0 - 375)
  /\ exists out v,
       predict model_fitted (Some 3) = Ok out
       /\ nth_error (rows out) 2
          = Some (last (keys (index history)) 0 + 1 + Z.of_nat 2, v)
       /\ loc_label (375 + 1 + Z.of_nat 2) history = Ok v.
Proof.
  assert (0 < 3) as Hn by lia.
  assert (Z.of_nat 2 < Z.min 3 (last (keys (index history)) 0 - 375)) as Hi
    by (vm_compute; reflexivity).
  split; [exact model_fitted_375|]. split; [exact model_fitted_base|].
  split; [exact history_is_monthly|]. split; [exact history_in_375|].
  split; [exact Hn|]. split; [exact Hi|].
  exact (@predict_rows_from_history _ model_fitted 375 history 3 2
           model_fitted_375 model_fitted_base history_is_monthly
           history_in_375 Hn Hi).
Defined.

Lemma calc_corr_last12_needs_all_months_witness :
  freq (index short) = MonthEnd
  /\ ~ In 12 (map month (keys (index (iloc_last 12 short))))
  /\ calc_corr_last12 short = Raise IndexError.
Proof.
  assert (freq (index short) = MonthEnd) as Hf by reflexivity.
  assert (~ In 12 (map month (keys (index (iloc_last 12 short))))) as Hm.
  { vm_compute. intros H.
    repeat (destruct H as [H|H]; [discriminate H|]). exact H. }
  split; [exact Hf|]. split; [exact Hm|].
  apply (proj2 (@calc_corr_last12_needs_all_months _ backend short Hf)).
  exists 12. split; [lia | exact Hm].
Defined.

Lemma fit_returns_iff_witness :
  monthly_history first_year = true
  /\ count_occ Z.eq_dec (columns first_year) (coluna model) = 1%nat
  /\ posicao model = 1
  /\ ~ (exists self', fit first_year model = (self', Ok tt)).
Proof.
  assert (monthly_history first_year = true) as H by reflexivity.
  assert (count_occ Z.eq_dec (columns first_year) (coluna model) = 1%nat)
    as Hc by (vm_compute; reflexivity).
  assert (posicao model = 1) as H1 by reflexivity.
  split; [exact H|]. split; [exact Hc|]. split; [exact H1|].
  intros Hfit.
  apply (proj2 (@fit_returns_iff _ backend first_year model H Hc) H1) in Hfit.
  vm_compute in Hfit. lia.
Defined.

(** On twelve months the default model cannot be fitted. *)
Example first_year_fit_raises :
  snd (fit first_year model) = Raise IndexError.
Proof. vm_compute. reflexivity. Qed.

End Worked.
